(** * The session factory of the UAF client: [uafc::SessionFactory]

    A shallow embedding of [src/uaf/client/sessions/sessionfactory.h] and the
    properties of its request dispatcher [invokeRequest].

    The header holds the bodies of [invokeRequest] and of the two overloads of
    [storeRequestHandleIfNeeded]; they are transcribed statement by statement.
    Everything they call that lives in other translation units (the
    invocation factory, the sessions, [acquireSession], [releaseSession],
    [getNewTransactionId]) is an operation of the interface [Collaborators],
    so the dispatcher's theorems hold for every implementation of them. *)

From stdpp Require Import gmap strings list fin_maps.
From Stdlib Require Import ZArith Lia.

Open Scope Z_scope.

(** ** Integers and handles *)

(** [OpcUa_UInt32]/[uint32_t] values are integers in [0, 2^32). *)
Definition UINT32_MODULUS : Z := 2 ^ 32.

Definition wrap32 (z : Z) : Z := z mod UINT32_MODULUS.

Definition TransactionId := Z.
Definition RequestHandle := Z.
Definition ClientConnectionId := Z.

(** [typedef uint32_t Activity;] *)
Definition Activity := Z.

(** ** [uaf::Status] *)

Module statuscodes.
(** Modelled from the spec: the status codes, declared in a header that is
    missing.  [UnsupportedError] and [ConnectionError] are the two codes the
    dispatcher sets itself; [Good] is what [isGood] tests; the other codes
    are the error kinds section 7 names for the operations around it. *)
Inductive StatusCode : Set :=
| Good
| Uncertain
| UnsupportedError
| ConnectionError
| DiscoveryMiss
| ReleaseUnderflow
| UnknownConnectionId
| InvalidServerUri
| OtherError (code : Z).

#[global] Instance StatusCode_eq_dec : EqDecision StatusCode.
Proof. solve_decision. Defined.
End statuscodes.
Export statuscodes.

(** Modelled from the spec: [uaf::Status], declared in a header that is
    missing: a status code and a description. *)
Record Status : Set := mkStatus {
  statusCode : StatusCode;
  description : string
}.

(** Modelled from the spec: [Status::isGood], missing with [uaf::Status]:
    section 7 knows good and non-good statuses only. *)
Definition isGood (s : Status) : bool :=
  match statusCode s with Good => true | _ => false end.

(** Modelled from the spec: [Status::isNotGood], missing with
    [uaf::Status]: the complement of [isGood]. *)
Definition isNotGood (s : Status) : bool := negb (isGood s).

(** Modelled from the spec: [Status::setStatus], missing with
    [uaf::Status]: [ret.setStatus(code, description)] overwrites both
    members. *)
Definition setStatus (code : StatusCode) (descr : string) (_ : Status) : Status :=
  mkStatus code descr.

Definition goodStatus : Status := mkStatus Good "".

(** Modelled from the spec: [uaf::Mask], declared in a header that is
    missing: one flag per request target (glossary). *)
Definition Mask := list bool.

(** Which of the two request base classes [_Service::Request] derives from;
    overload resolution of [storeRequestHandleIfNeeded] is decided by it. *)
Inductive RequestBase : Set :=
| BaseSessionRequest
| BaseSubscriptionRequest.

#[global] Instance RequestBase_eq_dec : EqDecision RequestBase.
Proof. solve_decision. Defined.

Section Factory.

(** [uafc::SessionSettings] and [uafc::SessionInformation] come from other
    headers; the dispatcher only passes their values along. *)
Context {SessionSettings SessionInformation : Type}.

(** ** The service trait

    [invokeRequest] is a template over [_Service], a tag type with
    associated types and a static [asynchronous] flag. *)
Class Service : Type := {
  name : string;
  asynchronous : bool;
  requestBase : RequestBase;
  RequestTarget : Type;
  ResultTarget : Type;
  (** the value-initialised element [std::vector::resize] appends *)
  defaultResultTarget : ResultTarget;
  Invocation : Type;
  (** members of [_Service::Invocation] used by the dispatcher *)
  setTransactionId : TransactionId → Invocation → Invocation;
  sessionSettings : Invocation → SessionSettings;
  setSessionInformation : SessionInformation → Invocation → Invocation;
  copyToResult : Invocation → list ResultTarget → Status * list ResultTarget
}.

Context {service : Service}.

(** [_Service::Request], declared in [requests.h]: the members the header
    reads, [requestHandle()] and [targets]. *)
Record Request : Type := mkRequest {
  requestHandle : RequestHandle;
  request_targets : list RequestTarget
}.

(** [_Service::Result], declared in [results.h]: the header touches
    [result.targets] only, and [copyToResult] above is typed on that
    member. *)
Record Result : Type := mkResult {
  result_targets : list ResultTarget
}.

(** [result.targets.resize(n)] *)
Definition resize_targets (n : nat) (result : Result) : Result :=
  mkResult (resize n defaultResultTarget (result_targets result)).

(** ** Operations defined outside the header

    [World] is the part of the program state these operations work on: the
    session map, the activity map, the [Session] objects and the servers
    behind them.  The transaction map and the id counter are private
    members of the factory that only the header's code and the transport
    callbacks (other threads) write; hence they are not part of [World].

    - [getNewTransactionId]: the counter [transactionId_] before the call
      gives the id returned and the counter after the call;
    - [factory_create]: [InvocationFactory<_Service>::create], returning
      the status, the result object it was handed by reference, and
      [factory.invocations] in the iteration order of the [std::map];
    - a [uafc::Session*] is a [SessionPtr]; [acquireSession] returns the
      pointer through its reference parameter. *)
Class Collaborators : Type := {
  World : Type;
  SessionPtr : Type;
  getNewTransactionId : TransactionId → TransactionId * TransactionId;
  factory_create :
    Request → Result → Mask → Status * Result * list (string * Invocation);
  acquireSession :
    string → SessionSettings → World → Status * SessionPtr * World;
  releaseSession : SessionPtr → bool → World → Status * World;
  sessionInformation : SessionPtr → World → SessionInformation;
  isConnected : SessionPtr → World → bool;
  invokeService :
    Request → Invocation → SessionPtr → World → Status * Invocation * World
}.

Context {collaborators : Collaborators}.

(** ** The factory state *)

(** The members of [SessionFactory] that the header's code reads or writes
    directly, and the [World] behind [sessionMap_] and [activityMap_]. *)
Record SessionFactory : Type := mkSessionFactory {
  transactionId_ : TransactionId;
  transactionMap_ : gmap Z RequestHandle;
  world : World
}.

(** What a run of the dispatcher does, in order: one event for each
    statement that writes the result or the transaction map or calls an
    outside operation.  The events are the means to say that a call was or
    was not made; the C++ object keeps no such record, and the calls of the
    logger are left out.  [invocationIndex] is the header's counter of
    processed invocations. *)
Inductive Event : Type :=
| EvResize (n : nat)
| EvStore (transactionId : TransactionId) (handle : RequestHandle)
| EvCreate (mask : Mask)
| EvSetTransactionId (invocationIndex : nat) (transactionId : TransactionId)
| EvAcquireSession (invocationIndex : nat) (serverUri : string)
| EvSetSessionInformation (invocationIndex : nat)
| EvInvokeService (invocationIndex : nat) (session : SessionPtr)
                  (invocation : Invocation)
| EvCopyToResult (invocationIndex : nat)
| EvReleaseSession (invocationIndex : nat) (session : SessionPtr)
| EvErase (transactionId : TransactionId).

(** ** A state monad that also records the events *)

Definition M (A : Type) : Type :=
  SessionFactory → A * SessionFactory * list Event.

Definition ret {A} (a : A) : M A := λ s, (a, s, []).

Definition bind {A B} (m : M A) (k : A → M B) : M B :=
  λ s, let '(a, s1, e1) := m s in
       let '(b, s2, e2) := k a s1 in
       (b, s2, e1 ++ e2).

Definition emit (e : Event) : M unit := λ s, (tt, s, [e]).

Definition get : M SessionFactory := λ s, (s, s, []).

Definition put (s : SessionFactory) : M unit := λ _, (tt, s, []).

(** run an outside operation on the [World] *)
Definition onWorld {A} (f : World → A * World) : M A :=
  λ s, let '(a, w) := f (world s) in
       (a, mkSessionFactory (transactionId_ s) (transactionMap_ s) w, []).

(** read the [World] *)
Definition askWorld {A} (f : World → A) : M A := λ s, (f (world s), s, []).

End Factory.

Arguments Service : clear implicits.
Arguments Collaborators {_ _} _.
Arguments Request {_ _} _.
Arguments Result {_ _} _.
Arguments SessionFactory {_ _ _} _.
Arguments Event {_ _ _} _.
Arguments M {_ _ _ _} _.

Declare Scope factory_scope.
Delimit Scope factory_scope with factory.
Notation "x <~ m ; k" := (bind m (λ x, k))
  (at level 20, m at level 100, k at level 200, only parsing) : factory_scope.
Notation "' pat <~ m ; k" := (bind m (λ pat, k))
  (at level 20, pat pattern, m at level 100, k at level 200,
   only parsing) : factory_scope.
Notation "m ;; k" := (bind m (λ _, k))
  (at level 100, k at level 200, only parsing, right associativity)
  : factory_scope.
Open Scope factory_scope.

(** ** The dispatcher: [storeRequestHandleIfNeeded] and [invokeRequest] *)

Section Dispatcher.

Context {SessionSettings SessionInformation : Type}.
Context {service : Service SessionSettings SessionInformation}.
Context {collaborators : Collaborators service}.

Local Abbreviation Request := (Request service).
Local Abbreviation Result := (Result service).

(** [transactionMap_[transactionId] = handle] *)
Definition storeInTransactionMap (transactionId : TransactionId)
    (handle : RequestHandle) : M unit :=
  s <~ get;
  put (mkSessionFactory (transactionId_ s)
         (<[transactionId := handle]> (transactionMap_ s)) (world s)).

(** [transactionMap_.erase(transactionId)] *)
Definition eraseFromTransactionMap (transactionId : TransactionId) : M unit :=
  s <~ get;
  put (mkSessionFactory (transactionId_ s)
         (delete transactionId (transactionMap_ s)) (world s)).

(** [transactionId = getNewTransactionId()] *)
Definition newTransactionId : M TransactionId :=
  s <~ get;
  let '(transactionId, counter) := getNewTransactionId (transactionId_ s) in
  put (mkSessionFactory counter (transactionMap_ s) (world s));;
  ret transactionId.

(** The overload taking a [BaseSessionRequest].  [transactionId] is the
    caller's variable, passed by reference: it is returned as it came in
    when nothing is stored. *)
Definition storeRequestHandleIfNeeded_session (request : Request)
    (transactionId : TransactionId) : M (bool * TransactionId) :=
  if asynchronous then
    transactionId <~ newTransactionId;
    storeInTransactionMap transactionId (requestHandle request);;
    emit (EvStore transactionId (requestHandle request));;
    ret (true, transactionId)
  else
    ret (false, transactionId).

(** The overload taking a [BaseSubscriptionRequest]: nothing to do. *)
Definition storeRequestHandleIfNeeded_subscription (request : Request)
    (transactionId : TransactionId) : M (bool * TransactionId) :=
  ret (false, transactionId).

(** The call [storeRequestHandleIfNeeded<_Service>(request, transactionId)],
    resolved by the base class of the request. *)
Definition storeRequestHandleIfNeeded (request : Request)
    (transactionId : TransactionId) : M (bool * TransactionId) :=
  match requestBase with
  | BaseSessionRequest =>
      storeRequestHandleIfNeeded_session request transactionId
  | BaseSubscriptionRequest =>
      storeRequestHandleIfNeeded_subscription request transactionId
  end.

(** The body of the [for] loop of [invokeRequest], for the map entry
    [it = (it->first, it->second)]. *)
Definition processInvocation (request : Request) (handleStored : bool)
    (transactionId : TransactionId) (invocationIndex : nat)
    (it : string * Invocation) (result : Result) : M (Status * Result) :=
  let invocation := it.2 in
  invocation <~
    (if handleStored then
       emit (EvSetTransactionId invocationIndex transactionId);;
       ret (setTransactionId transactionId invocation)
     else ret invocation);
  emit (EvAcquireSession invocationIndex it.1);;
  '(status, session) <~
    onWorld (λ w, let '(status, session, w') :=
                    acquireSession it.1 (sessionSettings invocation) w in
                  ((status, session), w'));
  if isGood status then
    information <~ askWorld (sessionInformation session);
    emit (EvSetSessionInformation invocationIndex);;
    let invocation := setSessionInformation information invocation in
    connected <~ askWorld (isConnected session);
    '(status, invocation) <~
      (if connected && isGood status then
         emit (EvInvokeService invocationIndex session invocation);;
         onWorld (λ w, let '(status, invocation', w') :=
                         invokeService request invocation session w in
                       ((status, invocation'), w'))
       else
         ret (setStatus ConnectionError
                "No connected session to invoke the service" status,
              invocation));
    '(status, result) <~
      (if negb asynchronous && isGood status then
         emit (EvCopyToResult invocationIndex);;
         let '(status, targets) :=
           copyToResult invocation (result_targets result) in
         ret (status, mkResult targets)
       else ret (status, result));
    emit (EvReleaseSession invocationIndex session);;
    onWorld (releaseSession session true);;
    ret (status, result)
  else
    ret (status, result).

(** The [for] loop: [its] is what is left of [factory.invocations], [status]
    is [ret] when the loop condition is evaluated. *)
Fixpoint processInvocations (request : Request) (handleStored : bool)
    (transactionId : TransactionId) (invocationIndex : nat)
    (its : list (string * Invocation)) (status : Status) (result : Result)
    : M (Status * Result) :=
  match its with
  | [] => ret (status, result)
  | it :: its' =>
      if isGood status then
        '(status, result) <~
          processInvocation request handleStored transactionId
            invocationIndex it result;
        processInvocations request handleStored transactionId
          (S invocationIndex) its' status result
      else ret (status, result)
  end.

(** The check made between building the invocations and the loop. *)
Definition checkSingleSession (invocations : list (string * Invocation))
    (status : Status) : Status :=
  if isGood status && asynchronous then
    if (1 <? length invocations)%nat then
      setStatus UnsupportedError
        "Asynchronous requests must be able to be assigned to a single session"
        status
    else status
  else status.

(** [invokeRequest<_Service>(request, mask, result)].  The last argument is
    the value the uninitialised local [transactionId] happens to hold. *)
Definition invokeRequest (request : Request) (mask : Mask) (result : Result)
    (transactionId : TransactionId) : M (Status * Result) :=
  emit (EvResize (length (request_targets request)));;
  let result := resize_targets (length (request_targets request)) result in
  '(handleStored, transactionId) <~
    storeRequestHandleIfNeeded request transactionId;
  emit (EvCreate mask);;
  let '(status, result, invocations) := factory_create request result mask in
  let status := checkSingleSession invocations status in
  '(status, result) <~
    processInvocations request handleStored transactionId 0 invocations
      status result;
  (if isNotGood status && handleStored then
     emit (EvErase transactionId);;
     eraseFromTransactionMap transactionId
   else ret tt);;
  ret (status, result).

End Dispatcher.

(** What a run returns, the state it leaves and the events it went through. *)
Section Runs.

Context {SessionSettings SessionInformation : Type}.
Context {service : Service SessionSettings SessionInformation}.
Context {collaborators : Collaborators service}.

Definition value {A} (r : A * SessionFactory collaborators
                          * list (Event collaborators)) : A := r.1.1.

Definition final {A} (r : A * SessionFactory collaborators
                          * list (Event collaborators))
  : SessionFactory collaborators := r.1.2.

Definition events {A} (r : A * SessionFactory collaborators
                           * list (Event collaborators))
  : list (Event collaborators) := r.2.

(** The invocation an event of the loop body belongs to. *)
Definition invocationIndexOf (e : Event collaborators) : option nat :=
  match e with
  | EvSetTransactionId i _ | EvAcquireSession i _
  | EvSetSessionInformation i | EvInvokeService i _ _
  | EvCopyToResult i | EvReleaseSession i _ => Some i
  | EvResize _ | EvStore _ _ | EvCreate _ | EvErase _ => None
  end.

(** Events of the loop body. *)
Definition isLoopEvent (e : Event collaborators) : bool :=
  bool_decide (is_Some (invocationIndexOf e)).

Definition isInvokeService (e : Event collaborators) : bool :=
  match e with EvInvokeService _ _ _ => true | _ => false end.

Definition isCopyToResult (e : Event collaborators) : bool :=
  match e with EvCopyToResult _ => true | _ => false end.

(** Events that write the transaction map. *)
Definition isStore (e : Event collaborators) : bool :=
  match e with EvStore _ _ => true | _ => false end.

Definition isErase (e : Event collaborators) : bool :=
  match e with EvErase _ => true | _ => false end.

End Runs.

(** ** Vocabulary of the statements *)

Section Vocabulary.

Context {SessionSettings SessionInformation : Type}.
Context {service : Service SessionSettings SessionInformation}.
Context {collaborators : Collaborators service}.

(** The request is a session request of an asynchronous service. *)
Definition sessionLevelAsynchronous : bool :=
  bool_decide (requestBase = BaseSessionRequest) && asynchronous.

(** The invocation as the loop body hands it to [acquireSession]. *)
Definition stamped (handleStored : bool) (transactionId : TransactionId)
    (invocation : Invocation) : Invocation :=
  if handleStored then setTransactionId transactionId invocation
  else invocation.

(** [ret] in the loop body when the test before [copyToResult] is reached,
    or when the body is left because no session was acquired: the status
    of [acquireSession] if that is not good, else the status of
    [invokeService] on a connected session, else the connection error. *)
Definition statusBeforeCopy (request : Request service) (handleStored : bool)
    (transactionId : TransactionId) (it : string * Invocation)
    (s : SessionFactory collaborators) : Status :=
  let invocation := stamped handleStored transactionId it.2 in
  let acquired := acquireSession it.1 (sessionSettings invocation) (world s) in
  let session := acquired.1.2 in
  if isGood acquired.1.1 then
    if isConnected session acquired.2 then
      (invokeService request
         (setSessionInformation (sessionInformation session acquired.2)
            invocation)
         session acquired.2).1.1
    else
      setStatus ConnectionError "No connected session to invoke the service"
        acquired.1.1
  else acquired.1.1.

End Vocabulary.

(** ** The session table

    [acquireSession], [acquireExistingSession], [releaseSession] and
    [deleteAllSessions] are declared in the header and defined in a
    translation unit that is not part of the sources at hand. *)

Module SessionTable.
Section Table.

Context {SessionSettings : Type} `{EqDecision SessionSettings}.

(** The discoverer and the network: which server URIs discovery has seen,
    and for which of them a connect attempt succeeds. *)
Variable discovered : string → bool.
Variable online : string → bool.

(** Modelled from the spec: the Session entity of section 3, missing with
    [session.h]: connection id, server URI, session settings and the
    connected flag. *)
Record Session : Type := mkSession {
  clientConnectionId : ClientConnectionId;
  serverUri : string;
  settings : SessionSettings;
  connected : bool
}.

(** The members [sessionMap_] and [activityMap_] of the factory, and the
    next connection id to hand out. *)
Record Table : Type := mkTable {
  sessionMap_ : gmap Z Session;
  activityMap_ : gmap Z Activity;
  nextClientConnectionId : ClientConnectionId
}.

Definition emptyTable : Table := mkTable ∅ ∅ 0.

(** [activityMap_[id]]: [std::map::operator[]] gives 0 for a missing key. *)
Definition activity (t : Table) (id : ClientConnectionId) : Activity :=
  default 0 (activityMap_ t !! id).

(** Equality of server URI and, field by field, of the settings. *)
Definition matches (serverUri' : string) (settings' : SessionSettings)
    (entry : Z * Session) : bool :=
  bool_decide (serverUri entry.2 = serverUri')
  && bool_decide (settings entry.2 = settings').

(** Modelled from the spec: [acquireSession], whose body is missing, after
    [acquireByMatch] of section 4.2: an existing session with equal server
    URI and equal settings has its activity count incremented and is
    returned whatever its connection state; otherwise a session is
    constructed with a fresh connection id, inserted, connected, and given
    the activity count 1.  A server URI that was not discovered is a hard
    failure (section 6).  The increment is that of a [uint32_t]. *)
Definition acquireSession (serverUri' : string) (settings' : SessionSettings)
    (t : Table) : Status * ClientConnectionId * Table :=
  match List.find (matches serverUri' settings')
          (map_to_list (sessionMap_ t)) with
  | Some (id, _) =>
      (goodStatus, id,
       mkTable (sessionMap_ t)
         (<[id := wrap32 (activity t id + 1)]> (activityMap_ t))
         (nextClientConnectionId t))
  | None =>
      if discovered serverUri' then
        let id := nextClientConnectionId t in
        (goodStatus, id,
         mkTable
           (<[id := mkSession id serverUri' settings' (online serverUri')]>
              (sessionMap_ t))
           (<[id := 1]> (activityMap_ t))
           (wrap32 (id + 1)))
      else
        (mkStatus DiscoveryMiss "Server URI was not discovered", 0, t)
  end.

(** Modelled from the spec: [acquireExistingSession], whose body is
    missing, after [acquireById] of section 4.2: matches strictly by
    connection id and errors if the id is absent. *)
Definition acquireExistingSession (id : ClientConnectionId) (t : Table)
    : Status * ClientConnectionId * Table :=
  match sessionMap_ t !! id with
  | Some _ =>
      (goodStatus, id,
       mkTable (sessionMap_ t)
         (<[id := wrap32 (activity t id + 1)]> (activityMap_ t))
         (nextClientConnectionId t))
  | None => (mkStatus UnknownConnectionId "Unknown connection id", 0, t)
  end.

(** Modelled from the spec: [releaseSession], whose body is missing, after
    [release] of section 4.2 and the header's comment on the declaration:
    good unless the activity count is already zero, which is reported and
    changes nothing; otherwise the count is decremented, and the session is
    removed when the count reaches zero and collection is allowed. *)
Definition releaseSession (session : ClientConnectionId)
    (allowGarbageCollection : bool) (t : Table) : Status * Table :=
  if activity t session =? 0 then
    (mkStatus ReleaseUnderflow "Session is already fully released", t)
  else
    let count := wrap32 (activity t session - 1) in
    if (count =? 0) && allowGarbageCollection then
      (goodStatus,
       mkTable (delete session (sessionMap_ t))
         (delete session (activityMap_ t)) (nextClientConnectionId t))
    else
      (goodStatus,
       mkTable (sessionMap_ t) (<[session := count]> (activityMap_ t))
         (nextClientConnectionId t)).

(** Modelled from the spec: [deleteAllSessions], whose body is missing,
    after [deleteAll] of section 4.2: every session is freed regardless of
    its activity count. *)
Definition deleteAllSessions (t : Table) : Table :=
  mkTable ∅ ∅ (nextClientConnectionId t).

(** The tables the factory can be in: it starts empty and changes through
    the four operations only. *)
Inductive reachable : Table → Prop :=
| reachable_empty : reachable emptyTable
| reachable_acquire uri s t :
    reachable t → reachable (acquireSession uri s t).2
| reachable_acquireExisting id t :
    reachable t → reachable (acquireExistingSession id t).2
| reachable_release session allow t :
    reachable t → reachable (releaseSession session allow t).2
| reachable_deleteAll t :
    reachable t → reachable (deleteAllSessions t).

(** Every stored activity count is a [uint32_t] value. *)
Definition activitiesInRange (t : Table) : Prop :=
  ∀ id a, activityMap_ t !! id = Some a → 0 ≤ a < UINT32_MODULUS.

End Table.
End SessionTable.

(** ** A demonstration instance: services over integer data, sessions from
    the table *)

Module Demo.

(** [uafc::SessionSettings], here the session timeout alone. *)
Definition Settings := Z.

(** [uafc::SessionInformation] *)
Record Information : Set := mkInformation {
  info_clientConnectionId : ClientConnectionId;
  info_serverUri : string;
  info_connected : bool
}.

(** A request target: the server it lives on and the datum it carries. *)
Record Target : Set := mkTarget {
  target_serverUri : string;
  target_datum : Z
}.

(** Modelled from the spec: the Invocation entity of section 3, missing
    with the invocation headers: session settings, the targets drawn from
    the request with their positions in it, the optional transaction id,
    the session information copied in by the dispatcher and the per-target
    results. *)
Record IntInvocation : Set := mkInvocation {
  inv_sessionSettings : Settings;
  inv_ranks : list nat;
  inv_targets : list Target;
  inv_transactionId : option TransactionId;
  inv_sessionInformation : option Information;
  inv_results : list (option Z)
}.

Definition inv_setTransactionId (id : TransactionId) (i : IntInvocation) :=
  mkInvocation (inv_sessionSettings i) (inv_ranks i) (inv_targets i)
    (Some id) (inv_sessionInformation i) (inv_results i).

Definition inv_setSessionInformation (info : Information) (i : IntInvocation) :=
  mkInvocation (inv_sessionSettings i) (inv_ranks i) (inv_targets i)
    (inv_transactionId i) (Some info) (inv_results i).

Definition inv_setResults (results : list (option Z)) (i : IntInvocation) :=
  mkInvocation (inv_sessionSettings i) (inv_ranks i) (inv_targets i)
    (inv_transactionId i) (inv_sessionInformation i) results.

Definition inv_addTarget (rank : nat) (t : Target) (i : IntInvocation) :=
  mkInvocation (inv_sessionSettings i) (inv_ranks i ++ [rank])
    (inv_targets i ++ [t]) (inv_transactionId i)
    (inv_sessionInformation i) (inv_results i).

(** Modelled from the spec: [copyToResult], missing with the invocation
    headers: the per-target results go back into the result vector at the
    positions the targets had in the request (section 3).  A position
    outside the vector is left alone. *)
Definition inv_copyToResult (i : IntInvocation) (targets : list (option Z))
    : Status * list (option Z) :=
  (goodStatus,
   foldl (λ acc p, <[p.1 := p.2]> acc) targets
     (zip (inv_ranks i) (inv_results i))).

Definition service (asynchronous' : bool) (base : RequestBase)
    : Service Settings Information := {|
  name := "Demo";
  asynchronous := asynchronous';
  requestBase := base;
  RequestTarget := Target;
  ResultTarget := option Z;
  defaultResultTarget := None;
  Invocation := IntInvocation;
  setTransactionId := inv_setTransactionId;
  sessionSettings := inv_sessionSettings;
  setSessionInformation := inv_setSessionInformation;
  copyToResult := inv_copyToResult
|}.

(** [invocations[serverUri]] gets the target; the list is kept in the key
    order of the [std::map]. *)
Fixpoint addTarget (uri : string) (rank : nat) (t : Target)
    (invocations : list (string * IntInvocation))
    : list (string * IntInvocation) :=
  match invocations with
  | [] => [(uri, inv_addTarget rank t (mkInvocation 0 [] [] None None []))]
  | (u, i) :: rest =>
      match String.compare uri u with
      | Eq => (u, inv_addTarget rank t i) :: rest
      | Lt => (uri, inv_addTarget rank t (mkInvocation 0 [] [] None None []))
                :: (u, i) :: rest
      | Gt => (u, i) :: addTarget uri rank t rest
      end
  end.

Fixpoint build (rank : nat) (targets : list Target) (mask : Mask)
    (invocations : list (string * IntInvocation))
    : Status * list (string * IntInvocation) :=
  match targets with
  | [] => (goodStatus, invocations)
  | t :: rest =>
      if default false (mask !! rank) then
        if String.eqb (target_serverUri t) "" then
          (mkStatus InvalidServerUri "Target without a server URI",
           invocations)
        else
          build (S rank) rest mask
            (addTarget (target_serverUri t) rank t invocations)
      else build (S rank) rest mask invocations
  end.

Section WithNetwork.

Variable asynchronous' : bool.
Variable base : RequestBase.
Variable discovered online : string → bool.

Local Abbreviation Table := (@SessionTable.Table Settings).

(** Modelled from the spec: [InvocationFactory::create], missing with
    [invocationfactory.h]: the masked targets are grouped by server URI,
    one invocation per group (section 2, component C).  The result is
    left as it is.  That a target without a server URI makes [create]
    fail, with the invocations built so far left in the factory, is how
    this instance uses the status [create] returns. *)
Definition create (request : Request (service asynchronous' base))
    (result : Result (service asynchronous' base)) (mask : Mask)
    : Status * Result (service asynchronous' base)
      * list (string * IntInvocation) :=
  let '(status, invocations) :=
    build 0 (request_targets request) mask [] in
  (status, result, invocations).

(** Modelled from the spec: [getNewTransactionId], whose body is missing:
    ids increase monotonically (section 3); [transactionId_] is the id
    handed out last. *)
Definition nextTransactionId (current : TransactionId)
    : TransactionId * TransactionId :=
  (wrap32 (current + 1), wrap32 (current + 1)).

Definition information (session : ClientConnectionId) (t : Table)
    : Information :=
  match SessionTable.sessionMap_ t !! session with
  | Some s => mkInformation session (SessionTable.serverUri s)
                (SessionTable.connected s)
  | None => mkInformation session "" false
  end.

Definition connected (session : ClientConnectionId) (t : Table) : bool :=
  match SessionTable.sessionMap_ t !! session with
  | Some s => SessionTable.connected s
  | None => false
  end.

(** The server answers every target with the datum it was sent; an
    asynchronous invocation is only submitted. *)
Definition serve (request : Request (service asynchronous' base))
    (i : IntInvocation) (session : ClientConnectionId) (t : Table)
    : Status * IntInvocation * Table :=
  if asynchronous' then (goodStatus, i, t)
  else
    (goodStatus,
     inv_setResults (map (λ x, Some (target_datum x)) (inv_targets i)) i,
     t).

Definition collaborators : Collaborators (service asynchronous' base) := {|
  World := Table;
  SessionPtr := ClientConnectionId;
  getNewTransactionId := nextTransactionId;
  factory_create := create;
  acquireSession := SessionTable.acquireSession discovered online;
  releaseSession := SessionTable.releaseSession;
  sessionInformation := information;
  isConnected := connected;
  invokeService := serve
|}.

Definition initialFactory : SessionFactory collaborators :=
  @mkSessionFactory _ _ _ collaborators 0 ∅ SessionTable.emptyTable.

End WithNetwork.

Definition everywhere : string → bool := λ _, true.
Definition allBut (uri : string) : string → bool :=
  λ u, negb (String.eqb u uri).

Definition request (asynchronous' : bool) (base : RequestBase)
    (handle : RequestHandle) (targets : list Target)
    : Request (service asynchronous' base) :=
  @mkRequest _ _ (service asynchronous' base) handle targets.

Definition emptyResult (asynchronous' : bool) (base : RequestBase)
    : Result (service asynchronous' base) :=
  @mkResult _ _ (service asynchronous' base) [].

(** [invokeRequest] on a factory without sessions, every server
    discovered, and the servers [online] reachable. *)
Definition invoke (asynchronous' : bool) (base : RequestBase)
    (online : string → bool) (handle : RequestHandle)
    (targets : list Target) (mask : Mask) :=
  @invokeRequest _ _ _ (collaborators asynchronous' base everywhere online)
    (request asynchronous' base handle targets) mask
    (emptyResult asynchronous' base) 0
    (initialFactory asynchronous' base everywhere online).

(** Sample requests. *)
Definition oneServer : list Target :=
  [mkTarget "A" 10; mkTarget "A" 20; mkTarget "A" 30].

Definition twoServers : list Target := [mkTarget "A" 10; mkTarget "B" 20].

Definition threeServers : list Target :=
  [mkTarget "A" 10; mkTarget "A" 20; mkTarget "B" 30; mkTarget "C" 40].

(** The third target has no server URI. *)
Definition unresolved : list Target :=
  [mkTarget "A" 10; mkTarget "B" 20; mkTarget "" 30].

Definition fullMask (targets : list Target) : Mask :=
  replicate (length targets) true.

(** The table after one session was acquired and released. *)
Definition releasedTable : @SessionTable.Table Settings :=
  (SessionTable.releaseSession 0 true
     (SessionTable.acquireSession everywhere everywhere "A" 0
        SessionTable.emptyTable).2).2.

End Demo.


(** ** More vocabulary: the calls on the session table *)

Section SessionEvents.

Context {SessionSettings SessionInformation : Type}.
Context {service : Service SessionSettings SessionInformation}.
Context {collaborators : Collaborators service}.

Definition isAcquireSession (e : Event collaborators) : bool :=
  match e with EvAcquireSession _ _ => true | _ => false end.

Definition isReleaseSession (e : Event collaborators) : bool :=
  match e with EvReleaseSession _ _ => true | _ => false end.

(** What the session gets when the invocation [it] of the factory is
    forwarded to it: the invocation, stamped if a handle was stored, with
    some session information copied in. *)
Definition forwardedFrom (handleStored : bool) (transactionId : TransactionId)
    (it : string * Invocation) (invocation : Invocation) : Prop :=
  ∃ information,
    invocation
    = setSessionInformation information
        (stamped handleStored transactionId it.2).

End SessionEvents.

(** A factory of the demonstration instance, server A offline, in which the
    id the next call is given is still bound to the request handle 7. *)
Definition pendingFactory
    : SessionFactory
        (Demo.collaborators true BaseSessionRequest Demo.everywhere
           (Demo.allBut "A")) :=
  @mkSessionFactory _ _ _
    (Demo.collaborators true BaseSessionRequest Demo.everywhere
       (Demo.allBut "A"))
    0 {[1 := 7]} SessionTable.emptyTable.

(** * Properties *)

(** ** Unfolding runs *)

Ltac run_monad :=
  unfold bind, ret, emit, get, put, onWorld, askWorld in *;
  cbn [fst snd value final events] in *.

(** Case analysis on the innermost undecided test or call of a run. *)
Ltac step_run :=
  match goal with
  | |- context [match ?x with _ => _ end] =>
      lazymatch x with
      | context [match _ with _ => _ end] => fail
      | _ => destruct x eqn:?
      end
  end; cbn [fst snd value final events
            transactionId_ transactionMap_ world] in *.

Ltac tidy_run :=
  cbn [fst snd value final events transactionId_ transactionMap_ world
       andb negb app isGood statusCode setStatus].

Section DispatcherFacts.

Context {SessionSettings SessionInformation : Type}.
Context {service : Service SessionSettings SessionInformation}.
Context {collaborators : Collaborators service}.

Local Abbreviation Request := (Request service).
Local Abbreviation Result := (Result service).
Local Abbreviation SessionFactory := (SessionFactory collaborators).

(** The loop body writes neither the id counter nor the transaction map. *)
Lemma processInvocation_frame (request : Request) handleStored transactionId
    invocationIndex it (result : Result) (s : SessionFactory) :
  let r := processInvocation request handleStored transactionId
             invocationIndex it result s in
  transactionId_ (final r) = transactionId_ s
  ∧ transactionMap_ (final r) = transactionMap_ s.
Proof.
  unfold processInvocation. run_monad.
  repeat step_run; auto.
Qed.

(** The run of the loop body, spelled out on the answers of the outside
    operations. *)
Lemma processInvocation_run (request : Request) handleStored transactionId
    invocationIndex it (result : Result) (s : SessionFactory) :
  let invocation := stamped handleStored transactionId it.2 in
  let acquired := acquireSession it.1 (sessionSettings invocation) (world s) in
  let session := acquired.1.2 in
  let forwarded :=
    setSessionInformation (sessionInformation session acquired.2) invocation in
  let connected := isConnected session acquired.2 in
  let invoked := invokeService request forwarded session acquired.2 in
  let status := statusBeforeCopy request handleStored transactionId it s in
  let copies := negb asynchronous && isGood status in
  let copied :=
    copyToResult (if connected then invoked.1.2 else forwarded)
      (result_targets result) in
  let released :=
    releaseSession session true (if connected then invoked.2 else acquired.2) in
  let stamp :=
    if handleStored
    then [EvSetTransactionId invocationIndex transactionId] else [] in
  processInvocation request handleStored transactionId invocationIndex it
    result s
  = if isGood acquired.1.1 then
      ((if copies then copied.1 else status,
        if copies then mkResult copied.2 else result),
       mkSessionFactory (transactionId_ s) (transactionMap_ s) released.2,
       stamp
         ++ [EvAcquireSession invocationIndex it.1;
             EvSetSessionInformation invocationIndex]
         ++ (if connected
             then [EvInvokeService invocationIndex session forwarded]
             else [])
         ++ (if copies then [EvCopyToResult invocationIndex] else [])
         ++ [EvReleaseSession invocationIndex session])
    else
      ((acquired.1.1, result),
       mkSessionFactory (transactionId_ s) (transactionMap_ s) acquired.2,
       stamp ++ [EvAcquireSession invocationIndex it.1]).
Proof.
  cbn zeta. unfold processInvocation, statusBeforeCopy, stamped. run_monad.
  destruct handleStored; tidy_run;
    destruct (acquireSession _ _ _) as [[status session] w]; tidy_run;
    (destruct (isGood status) eqn:Hacquired; tidy_run; [|done]);
    (destruct (isConnected session w); tidy_run;
     [destruct (invokeService _ _ _ _) as [[status' invocation'] w'];
      tidy_run|]);
    destruct asynchronous; tidy_run;
    try destruct (isGood status'); tidy_run;
    try destruct (copyToResult _ _); tidy_run;
    destruct (releaseSession _ _ _); tidy_run; reflexivity.
Qed.

Lemma processInvocations_frame (request : Request) handleStored
    transactionId its :
  ∀ invocationIndex status (result : Result) (s : SessionFactory),
    let r := processInvocations request handleStored transactionId
               invocationIndex its status result s in
    transactionId_ (final r) = transactionId_ s
    ∧ transactionMap_ (final r) = transactionMap_ s.
Proof.
  induction its as [|it its IH]; intros invocationIndex status result s;
    cbn [processInvocations].
  - by run_monad.
  - destruct (isGood status); [|by run_monad].
    pose proof (processInvocation_frame request handleStored transactionId
                  invocationIndex it result s) as [Hid Hmap].
    unfold bind.
    destruct (processInvocation _ _ _ _ _ _ _) as [[[status' result'] s'] e'].
    cbn [value final events fst snd] in *.
    specialize (IH (S invocationIndex) status' result' s').
    destruct (processInvocations _ _ _ _ _ _ _ _) as [[v s''] e''].
    cbn [value final events fst snd] in *.
    destruct IH as [IHid IHmap]. split; congruence.
Qed.

(** A status that is not good ends the loop before the next entry. *)
Lemma processInvocations_not_good (request : Request) handleStored
    transactionId invocationIndex its status (result : Result)
    (s : SessionFactory) :
  isGood status = false →
  processInvocations request handleStored transactionId invocationIndex
    its status result s = ((status, result), s, []).
Proof. intros Hbad. destruct its; cbn; [|rewrite Hbad]; by run_monad. Qed.

(** Every event of the loop body carries the index of its invocation. *)
Lemma processInvocation_events (request : Request) handleStored
    transactionId invocationIndex it (result : Result)
    (s : SessionFactory) :
  Forall (λ e, invocationIndexOf e = Some invocationIndex)
    (events (processInvocation request handleStored transactionId
               invocationIndex it result s)).
Proof.
  unfold processInvocation. run_monad.
  repeat step_run; cbn [app]; repeat constructor.
Qed.

Lemma processInvocations_events (request : Request) handleStored
    transactionId its :
  ∀ invocationIndex status (result : Result) (s : SessionFactory),
    Forall (λ e, ∃ i, invocationIndexOf e = Some i
                      ∧ (invocationIndex ≤ i < invocationIndex + length its)%nat)
      (events (processInvocations request handleStored transactionId
                 invocationIndex its status result s)).
Proof.
  induction its as [|it its IH]; intros invocationIndex status result s;
    cbn [processInvocations].
  - run_monad. constructor.
  - destruct (isGood status); [|run_monad; constructor].
    pose proof (processInvocation_events request handleStored transactionId
                  invocationIndex it result s) as Hbody.
    unfold bind.
    destruct (processInvocation _ _ _ _ _ _ _) as [[[status' result'] s'] e'].
    specialize (IH (S invocationIndex) status' result' s').
    destruct (processInvocations _ _ _ _ _ _ _ _) as [[v s''] e''].
    cbn [value final events fst snd length] in *.
    apply Forall_app. split.
    + eapply Forall_impl; [exact Hbody|].
      intros e He. exists invocationIndex. split; [done|lia].
    + eapply Forall_impl; [exact IH|].
      intros e (i & He & Hi). exists i. split; [done|lia].
Qed.

(** The loop run on a prefix that ends with a status that is not good is
    the run of the whole loop. *)
Lemma processInvocations_prefix (request : Request) handleStored
    transactionId its :
  ∀ k invocationIndex status (result : Result) (s : SessionFactory),
    let r := processInvocations request handleStored transactionId
               invocationIndex (take k its) status result s in
    isGood (value r).1 = false →
    processInvocations request handleStored transactionId invocationIndex
      its status result s = r.
Proof.
  induction its as [|it its IH]; intros k invocationIndex status result s.
  - by rewrite take_nil.
  - destruct k as [|k]; cbn [take processInvocations].
    + run_monad. intros Hbad. by rewrite Hbad.
    + destruct (isGood status); [|done].
      unfold bind.
      destruct (processInvocation _ _ _ _ _ _ _) as [[[status' result'] s'] e'].
      specialize (IH k (S invocationIndex) status' result' s').
      cbn zeta in IH.
      destruct (processInvocations _ _ _ _ (take k its) _ _ _)
        as [[v s''] e''] eqn:Hprefix.
      cbn [value final events fst snd] in *.
      intros Hbad. by rewrite (IH Hbad).
Qed.

(** The overload for session requests of an asynchronous service. *)
Lemma storeRequestHandleIfNeeded_stores (request : Request) transactionId
    (s : SessionFactory) :
  requestBase = BaseSessionRequest → asynchronous = true →
  let fresh := getNewTransactionId (transactionId_ s) in
  storeRequestHandleIfNeeded request transactionId s
  = ((true, fresh.1),
     mkSessionFactory fresh.2
       (<[fresh.1 := requestHandle request]> (transactionMap_ s)) (world s),
     [EvStore fresh.1 (requestHandle request)]).
Proof.
  intros Hbase Hasync.
  unfold storeRequestHandleIfNeeded, storeRequestHandleIfNeeded_session,
    newTransactionId, storeInTransactionMap.
  rewrite Hbase, Hasync. run_monad.
  by destruct (getNewTransactionId (transactionId_ s)).
Qed.

(** Every other call stores nothing. *)
Lemma storeRequestHandleIfNeeded_skips (request : Request) transactionId
    (s : SessionFactory) :
  requestBase = BaseSubscriptionRequest ∨ asynchronous = false →
  storeRequestHandleIfNeeded request transactionId s
  = ((false, transactionId), s, []).
Proof.
  unfold storeRequestHandleIfNeeded, storeRequestHandleIfNeeded_session,
    storeRequestHandleIfNeeded_subscription.
  intros [Hbase | Hsync].
  - by rewrite Hbase.
  - rewrite Hsync. by destruct requestBase.
Qed.

(** [invokeRequest] as one run of the steps before the loop, the loop and
    the rollback. *)
Lemma invokeRequest_run (request : Request) mask (result : Result)
    transactionId (s : SessionFactory) :
  let stored := storeRequestHandleIfNeeded request transactionId s in
  let created :=
    factory_create request
      (resize_targets (length (request_targets request)) result) mask in
  let loop :=
    processInvocations request (value stored).1 (value stored).2 0
      created.2 (checkSingleSession created.2 created.1.1) created.1.2
      (final stored) in
  let rollback := isNotGood (value loop).1 && (value stored).1 in
  invokeRequest request mask result transactionId s
  = (value loop,
     (if rollback
      then mkSessionFactory (transactionId_ (final loop))
             (delete (value stored).2 (transactionMap_ (final loop)))
             (world (final loop))
      else final loop),
     EvResize (length (request_targets request))
       :: events stored
       ++ EvCreate mask
       :: events loop
       ++ (if rollback then [EvErase (value stored).2] else [])).
Proof.
  unfold invokeRequest, eraseFromTransactionMap. run_monad.
  destruct (storeRequestHandleIfNeeded _ _ _) as [[[handleStored id] s1] e1].
  destruct (factory_create _ _ _) as [[status result'] invocations].
  cbn [value final events fst snd].
  destruct (processInvocations _ _ _ _ _ _ _ _) as [[[status' result''] s2] e2].
  cbn [value final events fst snd].
  destruct (isNotGood status' && handleStored);
    cbn [value final events fst snd app];
    by rewrite ?app_nil_r, <- ?app_assoc.
Qed.

Lemma storeRequestHandleIfNeeded_events (request : Request) transactionId
    (s : SessionFactory) :
  Forall (λ e, invocationIndexOf e = None)
    (events (storeRequestHandleIfNeeded request transactionId s)).
Proof.
  destruct (decide (requestBase = BaseSessionRequest)) as [Hbase|Hbase];
    [destruct asynchronous eqn:Hasync|].
  - rewrite storeRequestHandleIfNeeded_stores by done. by repeat constructor.
  - rewrite storeRequestHandleIfNeeded_skips by auto. constructor.
  - rewrite storeRequestHandleIfNeeded_skips; [constructor|].
    left. by destruct requestBase.
Qed.

Lemma filter_none (f : Event collaborators → bool) (l : list (Event collaborators)) :
  Forall (λ e, f e = false) l → List.filter f l = [].
Proof.
  induction 1 as [|e l He _ IH]; cbn; [done|]. by rewrite He.
Qed.

(** The loop emits no event outside its body. *)
Lemma processInvocations_loop_events (request : Request) handleStored
    transactionId invocationIndex its status (result : Result)
    (s : SessionFactory) (f : Event collaborators → bool) :
  (∀ e, is_Some (invocationIndexOf e) → f e = false) →
  Forall (λ e, f e = false)
    (events (processInvocations request handleStored transactionId
               invocationIndex its status result s)).
Proof.
  intros Hf. eapply Forall_impl; [apply processInvocations_events|].
  intros e (i & He & _). apply Hf. by rewrite He.
Qed.

(** The result as the loop body leaves it. *)
Lemma processInvocation_result (request : Request) handleStored
    transactionId invocationIndex it (result : Result) (s : SessionFactory) :
  let r := processInvocation request handleStored transactionId
             invocationIndex it result s in
  (value r).2 = result
  ∨ asynchronous = false
    ∧ ∃ invocation,
        (value r).2
        = mkResult (copyToResult invocation (result_targets result)).2.
Proof.
  cbn zeta. rewrite processInvocation_run. cbn zeta.
  destruct (isGood _); [|by left]. cbn [value fst snd].
  destruct asynchronous; [by left|]. cbn [negb andb].
  destruct (isGood _); [|by left]. right. eauto.
Qed.

(** An asynchronous service leaves the result alone throughout the loop. *)
Lemma processInvocations_asynchronous_result (request : Request)
    handleStored transactionId its :
  asynchronous = true →
  ∀ invocationIndex status (result : Result) (s : SessionFactory),
    (value (processInvocations request handleStored transactionId
              invocationIndex its status result s)).2 = result.
Proof.
  intros Hasync.
  induction its as [|it its IH]; intros invocationIndex status result s;
    cbn [processInvocations]; [done|].
  destruct (isGood status); [|done].
  pose proof (processInvocation_result request handleStored transactionId
                invocationIndex it result s) as Hbody.
  unfold bind.
  destruct (processInvocation _ _ _ _ _ _ _) as [[[status' result'] s'] e'].
  specialize (IH (S invocationIndex) status' result' s').
  destruct (processInvocations _ _ _ _ _ _ _ _) as [[[status'' result''] s''] e''].
  cbn [value final events fst snd] in *.
  destruct Hbody as [->|[Hsync _]]; [done|congruence].
Qed.

(** An asynchronous service never runs [copyToResult] in the loop. *)
Lemma processInvocations_asynchronous_events (request : Request)
    handleStored transactionId its :
  asynchronous = true →
  ∀ invocationIndex status (result : Result) (s : SessionFactory),
    Forall (λ e, isCopyToResult e = false)
      (events (processInvocations request handleStored transactionId
                 invocationIndex its status result s)).
Proof.
  intros Hasync.
  induction its as [|it its IH]; intros invocationIndex status result s;
    cbn [processInvocations]; [constructor|].
  destruct (isGood status); [|constructor].
  unfold bind. rewrite processInvocation_run. cbn zeta. rewrite Hasync.
  cbn [negb andb].
  destruct (isGood (acquireSession _ _ _).1.1);
    match goal with
    | |- context [processInvocations ?a ?b ?c ?d ?e ?f ?g ?h] =>
        specialize (IH d f g h);
        destruct (processInvocations a b c d e f g h) as [[v s''] e'']
    end;
    cbn [value final events fst snd] in *;
    repeat (apply Forall_app; split); try done;
    try destruct handleStored; try destruct (isConnected _ _);
    by repeat constructor.
Qed.

(** The loop keeps the number of result targets when [copyToResult] does. *)
Lemma processInvocations_result_length (request : Request) handleStored
    transactionId its :
  (∀ invocation targets,
     length (copyToResult invocation targets).2 = length targets) →
  ∀ invocationIndex status (result : Result) (s : SessionFactory),
    length (result_targets
              (value (processInvocations request handleStored transactionId
                        invocationIndex its status result s)).2)
    = length (result_targets result).
Proof.
  intros Hcopy.
  induction its as [|it its IH]; intros invocationIndex status result s;
    cbn [processInvocations]; [done|].
  destruct (isGood status); [|done].
  pose proof (processInvocation_result request handleStored transactionId
                invocationIndex it result s) as Hbody.
  unfold bind.
  destruct (processInvocation _ _ _ _ _ _ _) as [[[status' result'] s'] e'].
  specialize (IH (S invocationIndex) status' result' s').
  destruct (processInvocations _ _ _ _ _ _ _ _) as [[[status'' result''] s''] e''].
  cbn [value final events fst snd] in *.
  rewrite IH.
  destruct Hbody as [->|[_ [invocation ->]]]; [done|].
  cbn [result_targets]. apply Hcopy.
Qed.

Lemma checkSingleSession_not_good invocations status :
  asynchronous = true → (1 < length invocations)%nat →
  isGood (checkSingleSession invocations status) = false.
Proof.
  intros Hasync Hmany. unfold checkSingleSession. rewrite Hasync.
  destruct (isGood status) eqn:Hgood; cbn [andb]; [|done].
  by apply Nat.ltb_lt in Hmany as ->.
Qed.

End DispatcherFacts.

(** ** The claims about the dispatcher *)

Section DispatcherClaims.

Context {SessionSettings SessionInformation : Type}.
Context {service : Service SessionSettings SessionInformation}.
Context {collaborators : Collaborators service}.

Local Abbreviation Request := (Request service).
Local Abbreviation Result := (Result service).
Local Abbreviation SessionFactory := (SessionFactory collaborators).

(** C1, as amended.  For an asynchronous service, when the invocation
    factory leaves more than one invocation: if the factory's status is
    good, [invokeRequest] returns [UnsupportedError]; if the factory's
    status is not good, [invokeRequest] returns that status; either way the
    body of the loop never runs, so nothing is stamped, acquired or
    forwarded. *)
Theorem invokeRequest_fan_out_not_forwarded (request : Request) mask
    (result : Result) transactionId (s : SessionFactory) :
  asynchronous = true →
  let created :=
    factory_create request
      (resize_targets (length (request_targets request)) result) mask in
  (1 < length created.2)%nat →
  let r := invokeRequest request mask result transactionId s in
  (isGood created.1.1 = true → statusCode (value r).1 = UnsupportedError)
  ∧ (isGood created.1.1 = false → (value r).1 = created.1.1)
  ∧ Forall (λ e, isLoopEvent e = false) (events r).
Proof.
  intros Hasync created Hmany r. subst r.
  rewrite invokeRequest_run. fold created.
  pose proof (checkSingleSession_not_good _ created.1.1 Hasync Hmany) as Hbad.
  rewrite processInvocations_not_good by done.
  cbn [value final events fst snd].
  split; [|split].
  - intros Hgood. unfold checkSingleSession. rewrite Hgood, Hasync.
    cbn [andb]. by apply Nat.ltb_lt in Hmany as ->.
  - intros Hfailed. unfold checkSingleSession. by rewrite Hfailed.
  - constructor; [done|]. apply Forall_app. split.
    + eapply Forall_impl; [apply storeRequestHandleIfNeeded_events|].
      intros e He. unfold isLoopEvent. by rewrite He.
    + constructor; [done|]. cbn [app]. by destruct (_ && _); repeat constructor.
Qed.

(** C2.  For a session request of an asynchronous service, a transaction
    id is allocated and bound, and when [invokeRequest] returns a status
    that is not good the transaction map has no entry for that id. *)
Theorem invokeRequest_failure_erases_binding (request : Request) mask
    (result : Result) transactionId (s : SessionFactory) :
  asynchronous = true → requestBase = BaseSessionRequest →
  let id := (getNewTransactionId (transactionId_ s)).1 in
  let r := invokeRequest request mask result transactionId s in
  isGood (value r).1 = false →
  EvStore id (requestHandle request) ∈ events r
  ∧ EvErase id ∈ events r
  ∧ transactionMap_ (final r) !! id = None.
Proof.
  intros Hasync Hbase id r. subst r.
  rewrite invokeRequest_run.
  rewrite storeRequestHandleIfNeeded_stores by done. fold id.
  cbn [value final events fst snd].
  intros Hbad. unfold isNotGood. rewrite Hbad. cbn [negb andb].
  cbn [transactionMap_]. split; [|split].
  - set_solver.
  - set_solver.
  - apply lookup_delete_eq.
Qed.

(** C8.  For a session request of an asynchronous service, when
    [invokeRequest] returns a good status the transaction map still maps
    the allocated id to the request handle, and nothing was erased. *)
Theorem invokeRequest_success_keeps_binding (request : Request) mask
    (result : Result) transactionId (s : SessionFactory) :
  asynchronous = true → requestBase = BaseSessionRequest →
  let id := (getNewTransactionId (transactionId_ s)).1 in
  let r := invokeRequest request mask result transactionId s in
  isGood (value r).1 = true →
  transactionMap_ (final r) !! id = Some (requestHandle request)
  ∧ transactionMap_ (final r)
    = <[id := requestHandle request]> (transactionMap_ s)
  ∧ Forall (λ e, isErase e = false) (events r).
Proof.
  intros Hasync Hbase id r. subst r.
  rewrite invokeRequest_run.
  rewrite storeRequestHandleIfNeeded_stores by done. fold id.
  cbn [value final events fst snd].
  intros Hgood. unfold isNotGood. rewrite Hgood. cbn [negb andb].
  match goal with
  | |- context [processInvocations ?a ?b ?c ?d ?e ?f ?g ?h] =>
      pose proof (processInvocations_frame a b c e d f g h) as [_ Hmap];
      pose proof (processInvocations_loop_events a b c d e f g h isErase)
        as Hloop
  end.
  cbn zeta in Hmap. cbn [transactionMap_] in Hmap.
  split; [|split].
  - rewrite Hmap. apply lookup_insert_eq.
  - exact Hmap.
  - constructor; [done|]. constructor; [done|]. constructor; [done|].
    rewrite app_nil_r. apply Hloop. by intros [] [? ?].
Qed.

(** C10.  For a synchronous service a call of [invokeRequest] leaves the
    transaction map and the id counter as they were: nothing is stored and
    nothing is erased. *)
Theorem invokeRequest_synchronous_frame (request : Request) mask
    (result : Result) transactionId (s : SessionFactory) :
  asynchronous = false →
  let r := invokeRequest request mask result transactionId s in
  transactionMap_ (final r) = transactionMap_ s
  ∧ transactionId_ (final r) = transactionId_ s
  ∧ Forall (λ e, isStore e = false ∧ isErase e = false) (events r).
Proof.
  intros Hsync r. subst r.
  rewrite invokeRequest_run.
  rewrite storeRequestHandleIfNeeded_skips by auto.
  cbn [value final events fst snd]. rewrite andb_false_r.
  match goal with
  | |- context [processInvocations ?a ?b ?c ?d ?e ?f ?g ?h] =>
      pose proof (processInvocations_frame a b c e d f g h) as [Hid Hmap];
      pose proof (processInvocations_events a b c e d f g h) as Hloop
  end.
  cbn zeta in Hid, Hmap.
  split; [done|]. split; [done|].
  constructor; [done|]. constructor; [done|]. rewrite app_nil_r.
  eapply Forall_impl; [exact Hloop|].
  intros e (i & He & _). by destruct e.
Qed.

(** C3.  [invokeRequest] allocates a transaction id and binds it to the
    request handle exactly when the request is a session request of an
    asynchronous service: then the id is the one [getNewTransactionId]
    returns and the map gets that one entry; otherwise nothing is stored.
    For a subscription request the id counter and the transaction map are
    the same after the call as before it, whatever the asynchrony. *)
Theorem invokeRequest_binds_iff_session_asynchronous (request : Request)
    mask (result : Result) transactionId (s : SessionFactory) :
  let fresh := getNewTransactionId (transactionId_ s) in
  let stored := storeRequestHandleIfNeeded request transactionId s in
  let r := invokeRequest request mask result transactionId s in
  (value stored).1 = sessionLevelAsynchronous
  ∧ stored
    = (if sessionLevelAsynchronous
       then ((true, fresh.1),
             mkSessionFactory fresh.2
               (<[fresh.1 := requestHandle request]> (transactionMap_ s))
               (world s),
             [EvStore fresh.1 (requestHandle request)])
       else ((false, transactionId), s, []))
  ∧ List.filter isStore (events r)
    = (if sessionLevelAsynchronous
       then [EvStore fresh.1 (requestHandle request)] else [])
  ∧ transactionId_ (final r)
    = (if sessionLevelAsynchronous then fresh.2 else transactionId_ s)
  ∧ (requestBase = BaseSubscriptionRequest →
     sessionLevelAsynchronous = false
     ∧ transactionId_ (final r) = transactionId_ s
     ∧ transactionMap_ (final r) = transactionMap_ s).
Proof.
  intros fresh stored r.
  assert (stored
          = (if sessionLevelAsynchronous
             then ((true, fresh.1),
                   mkSessionFactory fresh.2
                     (<[fresh.1 := requestHandle request]> (transactionMap_ s))
                     (world s),
                   [EvStore fresh.1 (requestHandle request)])
             else ((false, transactionId), s, []))) as Hstored.
  { subst stored. unfold sessionLevelAsynchronous.
    destruct (decide (requestBase = BaseSessionRequest)) as [Hbase|Hbase];
      [destruct asynchronous eqn:Hasync|].
    - rewrite bool_decide_true by done. cbn [andb].
      by rewrite storeRequestHandleIfNeeded_stores.
    - rewrite andb_false_r. by rewrite storeRequestHandleIfNeeded_skips by auto.
    - rewrite bool_decide_false by done. cbn [andb].
      rewrite storeRequestHandleIfNeeded_skips; [done|].
      left. by destruct requestBase. }
  assert (List.filter isStore (events r) = List.filter isStore (events stored)
          ∧ transactionId_ (final r) = transactionId_ (final stored)
          ∧ (isNotGood (value r).1 && (value stored).1 = false →
             transactionMap_ (final r) = transactionMap_ (final stored)))
    as (Hevents & Hid & Hmap).
  { subst r. rewrite invokeRequest_run. fold stored.
    cbn [value final events fst snd].
    match goal with
    | |- context [processInvocations ?a ?b ?c ?d ?e ?f ?g ?h] =>
        pose proof (processInvocations_frame a b c e d f g h) as [Hid Hmap];
        pose proof (processInvocations_loop_events a b c d e f g h isStore)
          as Hloop
    end.
    cbn zeta in Hid, Hmap. split; [|split].
    - cbn [List.filter isStore]. rewrite !List.filter_app.
      cbn [List.filter isStore]. rewrite List.filter_app.
      rewrite (filter_none isStore (events (processInvocations _ _ _ _ _ _ _ _)))
        by (apply Hloop; by intros [] [? ?]).
      destruct (_ && _); cbn [List.filter isStore app]; by rewrite app_nil_r.
    - by destruct (_ && _).
    - by intros ->. }
  split; [by rewrite Hstored; destruct sessionLevelAsynchronous|].
  split; [done|]. split; [|split].
  - rewrite Hevents, Hstored. by destruct sessionLevelAsynchronous.
  - rewrite Hid, Hstored. by destruct sessionLevelAsynchronous.
  - intros Hbase.
    assert (sessionLevelAsynchronous = false) as Hno.
    { unfold sessionLevelAsynchronous. rewrite Hbase. done. }
    rewrite Hno in Hstored. split; [done|].
    rewrite Hid, Hmap; rewrite Hstored; cbn [value final fst snd];
      [done..|apply andb_false_r].
Qed.

(** C4.  Once the status is not good after the first [k] entries of the
    invocation map, the loop is over: the run over all entries is the run
    over those [k], with the same status, result, state and events, and
    every event of it belongs to one of the first [k] invocations.  Hence
    nothing is stamped, acquired or forwarded after the first failure. *)
Theorem processInvocations_stops_at_first_failure (request : Request)
    handleStored transactionId its k status (result : Result)
    (s : SessionFactory) :
  let r := processInvocations request handleStored transactionId 0
             (take k its) status result s in
  isGood (value r).1 = false →
  processInvocations request handleStored transactionId 0 its status
    result s = r
  ∧ Forall (λ e, ∃ i, invocationIndexOf e = Some i ∧ (i < k)%nat)
      (events r).
Proof.
  intros r Hbad. split.
  - by apply processInvocations_prefix.
  - eapply Forall_impl; [apply processInvocations_events|].
    intros e (i & He & Hi). exists i. split; [done|].
    rewrite length_take in Hi. lia.
Qed.

(** C6.  In the loop body, once a session is acquired with a good status:
    if the session is connected, the invocation (stamped, and carrying the
    session information) is forwarded to it exactly once, and the status of
    that call is the status of the body unless [copyToResult] runs after
    it; if the session is not connected, the service is not invoked, the
    status is [ConnectionError] and the session is released. *)
Theorem processInvocation_forwards_iff_connected (request : Request)
    handleStored transactionId invocationIndex it (result : Result)
    (s : SessionFactory) :
  let invocation := stamped handleStored transactionId it.2 in
  let acquired := acquireSession it.1 (sessionSettings invocation) (world s) in
  let session := acquired.1.2 in
  let forwarded :=
    setSessionInformation (sessionInformation session acquired.2) invocation in
  let r := processInvocation request handleStored transactionId
             invocationIndex it result s in
  isGood acquired.1.1 = true →
  if isConnected session acquired.2 then
    List.filter isInvokeService (events r)
    = [EvInvokeService invocationIndex session forwarded]
    ∧ (asynchronous = true
       ∨ isGood (invokeService request forwarded session acquired.2).1.1 = false →
       (value r).1 = (invokeService request forwarded session acquired.2).1.1)
  else
    List.filter isInvokeService (events r) = []
    ∧ statusCode (value r).1 = ConnectionError
    ∧ world (final r) = (releaseSession session true acquired.2).2.
Proof.
  intros invocation acquired session forwarded r Hacquired. subst r.
  rewrite processInvocation_run. cbn zeta.
  unfold statusBeforeCopy. cbn zeta.
  fold invocation. fold acquired. fold session. fold forwarded.
  rewrite Hacquired.
  destruct (isConnected session acquired.2); tidy_run.
  - split.
    + rewrite !List.filter_app.
      by destruct handleStored, (negb asynchronous && _).
    + intros [-> | ->]; [done|]. by rewrite andb_false_r.
  - rewrite andb_false_r. tidy_run. split; [|done].
    rewrite !List.filter_app. by destruct handleStored.
Qed.

(** C7.  In the loop body [copyToResult] runs exactly when the service is
    synchronous and the status reached before it is good; when it runs, the
    body returns what [copyToResult] makes of the invocation the session
    handed back; when it does not run, the result is left as it was.  For
    an asynchronous service a whole call of [invokeRequest] never runs
    [copyToResult], and hands back the result as the invocation factory
    left it. *)
Theorem processInvocation_copies_iff_synchronous_and_good
    (request : Request) handleStored transactionId invocationIndex it
    (result : Result) (s : SessionFactory) mask transactionId0 :
  let r := processInvocation request handleStored transactionId
             invocationIndex it result s in
  let copies :=
    negb asynchronous
    && isGood (statusBeforeCopy request handleStored transactionId it s) in
  let whole := invokeRequest request mask result transactionId0 s in
  let invocation := stamped handleStored transactionId it.2 in
  let acquired := acquireSession it.1 (sessionSettings invocation) (world s) in
  let session := acquired.1.2 in
  let invoked :=
    invokeService request
      (setSessionInformation (sessionInformation session acquired.2) invocation)
      session acquired.2 in
  List.filter isCopyToResult (events r)
  = (if copies then [EvCopyToResult invocationIndex] else [])
  ∧ (copies = true →
     value r
     = ((copyToResult invoked.1.2 (result_targets result)).1,
        mkResult (copyToResult invoked.1.2 (result_targets result)).2))
  ∧ (copies = false →
     (value r).2 = result
     ∧ (value r).1 = statusBeforeCopy request handleStored transactionId it s)
  ∧ (asynchronous = true →
     List.filter isCopyToResult (events whole) = []
     ∧ (value whole).2
       = (factory_create request
            (resize_targets (length (request_targets request)) result)
            mask).1.2).
Proof.
  intros r copies whole invocation acquired session invoked.
  assert (isGood (acquireSession it.1
                    (sessionSettings (stamped handleStored transactionId it.2))
                    (world s)).1.1 = false → copies = false) as Hfailed.
  { intros Hacquired. subst copies. unfold statusBeforeCopy. cbn zeta.
    rewrite !Hacquired. apply andb_false_r. }
  split; [|split; [|split]].
  - subst r. rewrite processInvocation_run. cbn zeta. fold copies.
    destruct (isGood (acquireSession _ _ _).1.1) eqn:Hacquired; tidy_run.
    + rewrite !List.filter_app.
      by destruct handleStored, (isConnected _ _), copies.
    + rewrite (Hfailed eq_refl), List.filter_app. by destruct handleStored.
  - intros Hyes. subst r. rewrite processInvocation_run. cbn zeta.
    fold copies invocation acquired session invoked. rewrite Hyes.
    destruct (isGood acquired.1.1) eqn:Hacquired;
      [|by rewrite (Hfailed Hacquired) in Hyes].
    destruct (isConnected session acquired.2) eqn:Hconnected; [done|].
    subst copies. unfold statusBeforeCopy in Hyes. cbn zeta in Hyes.
    fold invocation acquired session in Hyes.
    rewrite Hacquired, Hconnected in Hyes. cbn in Hyes.
    by rewrite andb_false_r in Hyes.
  - intros Hno. subst r. rewrite processInvocation_run. cbn zeta.
    fold copies. rewrite Hno.
    destruct (isGood (acquireSession _ _ _).1.1) eqn:Hacquired; tidy_run;
      [done|].
    split; [done|]. unfold statusBeforeCopy. cbn zeta. by rewrite Hacquired.
  - intros Hasync. subst whole. rewrite invokeRequest_run.
    cbn [value final events fst snd]. split.
    + apply filter_none. constructor; [done|]. apply Forall_app. split.
      * eapply Forall_impl; [apply storeRequestHandleIfNeeded_events|].
        by intros [].
      * constructor; [done|]. apply Forall_app. split.
        -- by apply processInvocations_asynchronous_events.
        -- destruct (isNotGood _ && _); by repeat constructor.
    + by apply processInvocations_asynchronous_result.
Qed.

(** C9.  Whenever [invokeRequest] returns, with whatever status, the
    result has as many targets as the request: the resize comes first, and
    neither the invocation factory nor [copyToResult], which write into
    the vector, change its length. *)
Theorem invokeRequest_result_size (request : Request) mask
    (result : Result) transactionId (s : SessionFactory) :
  (∀ (request' : Request) (result' : Result) mask',
     length (result_targets (factory_create request' result' mask').1.2)
     = length (result_targets result')) →
  (∀ invocation targets,
     length (copyToResult invocation targets).2 = length targets) →
  length (result_targets
            (value (invokeRequest request mask result transactionId s)).2)
  = length (request_targets request).
Proof.
  intros Hcreate Hcopy. rewrite invokeRequest_run.
  cbn [value final events fst snd].
  rewrite processInvocations_result_length by done.
  rewrite Hcreate. unfold resize_targets. cbn [result_targets].
  apply length_resize.
Qed.

End DispatcherClaims.

(** ** The claim about the activity counts *)

Section SessionTableClaims.

Context {SessionSettings : Type} `{EqDecision SessionSettings}.
Variable discovered online : string → bool.

Local Abbreviation Table := (@SessionTable.Table SessionSettings).

Lemma wrap32_range z : 0 ≤ wrap32 z < UINT32_MODULUS.
Proof. apply Z.mod_pos_bound. done. Qed.

Lemma activitiesInRange_insert (t : Table) id a
    (sessions : gmap Z (@SessionTable.Session SessionSettings)) next :
  SessionTable.activitiesInRange t →
  0 ≤ a < UINT32_MODULUS →
  SessionTable.activitiesInRange
    (SessionTable.mkTable sessions (<[id := a]> (SessionTable.activityMap_ t)) next).
Proof.
  intros Ht Ha id' a'. cbn [SessionTable.activityMap_].
  destruct (decide (id = id')) as [<-|Hne].
  - rewrite lookup_insert_eq. by intros [= <-].
  - rewrite lookup_insert_ne by done. apply Ht.
Qed.

Lemma activitiesInRange_delete (t : Table) id
    (sessions : gmap Z (@SessionTable.Session SessionSettings)) next :
  SessionTable.activitiesInRange t →
  SessionTable.activitiesInRange
    (SessionTable.mkTable sessions (delete id (SessionTable.activityMap_ t)) next).
Proof.
  intros Ht id' a'. cbn [SessionTable.activityMap_].
  destruct (decide (id = id')) as [<-|Hne].
  - by rewrite lookup_delete_eq.
  - rewrite lookup_delete_ne by done. apply Ht.
Qed.

Lemma reachable_activitiesInRange (t : Table) :
  SessionTable.reachable discovered online t →
  SessionTable.activitiesInRange t.
Proof.
  induction 1 as [|uri settings t _ IH|id t _ IH|session allow t _ IH|t _ IH].
  - intros id a. cbn. by rewrite lookup_empty.
  - unfold SessionTable.acquireSession.
    destruct (List.find _ _) as [[id ?]|]; cbn [snd].
    + apply activitiesInRange_insert; [done|apply wrap32_range].
    + destruct (discovered uri); cbn [snd]; [|done].
      by apply activitiesInRange_insert.
  - unfold SessionTable.acquireExistingSession.
    destruct (_ !! id); cbn [snd]; [|done].
    apply activitiesInRange_insert; [done|apply wrap32_range].
  - unfold SessionTable.releaseSession.
    destruct (_ =? 0); cbn [snd]; [done|].
    destruct (_ && _); cbn [snd].
    + by apply activitiesInRange_delete.
    + apply activitiesInRange_insert; [done|apply wrap32_range].
  - intros id a. cbn. by rewrite lookup_empty.
Qed.

(** C5.  In every table the factory can reach, each activity count is a
    [uint32_t] value, hence not negative; and releasing a session whose
    count is zero returns the status [ReleaseUnderflow], which is not good,
    and leaves the table, with the count still zero, as it was. *)
Theorem release_underflow_is_reported (t : Table) :
  SessionTable.reachable discovered online t →
  (∀ id a, SessionTable.activityMap_ t !! id = Some a →
           0 ≤ a < UINT32_MODULUS)
  ∧ (∀ id, 0 ≤ SessionTable.activity t id)
  ∧ (∀ session allowGarbageCollection,
       SessionTable.activity t session = 0 →
       let r := SessionTable.releaseSession session allowGarbageCollection t in
       statusCode r.1 = ReleaseUnderflow
       ∧ isGood r.1 = false
       ∧ r.2 = t
       ∧ SessionTable.activity r.2 session = 0).
Proof.
  intros Hreachable.
  pose proof (reachable_activitiesInRange t Hreachable) as Hrange.
  split; [exact Hrange|]. split.
  - intros id. unfold SessionTable.activity.
    destruct (_ !! id) as [a|] eqn:Ha; cbn; [|done].
    by apply (Hrange id a).
  - intros session allow Hzero. cbn zeta.
    unfold SessionTable.releaseSession. by rewrite Hzero.
Qed.

End SessionTableClaims.

(** ** The instance: scenarios, and the theorems applied to it *)

Section DemoFacts.

Import Demo.

Lemma create_leaves_result asynchronous' base
    (request : Request (service asynchronous' base))
    (result : Result (service asynchronous' base)) mask :
  (create asynchronous' base request result mask).1.2 = result.
Proof. unfold create. by destruct (build _ _ _ _). Qed.

Lemma inv_copyToResult_length i targets :
  length (inv_copyToResult i targets).2 = length targets.
Proof.
  unfold inv_copyToResult. cbn [snd].
  generalize (zip (inv_ranks i) (inv_results i)). intros l.
  revert targets. induction l as [|p l IH]; intros targets; cbn [foldl];
    [done|].
  by rewrite IH, length_insert.
Qed.

(** S1: a synchronous read of three targets on one server. *)
Example scenario_single_server :
  let r := invoke false BaseSessionRequest everywhere 7 oneServer
             (fullMask oneServer) in
  (value r).1 = goodStatus
  ∧ result_targets (value r).2 = [Some 10; Some 20; Some 30]
  ∧ List.filter isInvokeService (events r)
    = [@EvInvokeService _ _ _
         (collaborators false BaseSessionRequest everywhere everywhere)
         0%nat 0
         (mkInvocation 0 [0; 1; 2]%nat oneServer None
            (Some (mkInformation 0 "A" true)) [])].
Proof. cbn zeta. repeat split. Qed.

(** S2: a synchronous read fanned out over three servers. *)
Example scenario_fan_out :
  let r := invoke false BaseSessionRequest everywhere 7 threeServers
             (fullMask threeServers) in
  (value r).1 = goodStatus
  ∧ result_targets (value r).2 = [Some 10; Some 20; Some 30; Some 40]
  ∧ length (List.filter isInvokeService (events r)) = 3%nat.
Proof. cbn zeta. repeat split. Qed.

(** S3: an asynchronous call over two servers is refused. *)
Example scenario_asynchronous_fan_out :
  let r := invoke true BaseSessionRequest everywhere 42 twoServers
             (fullMask twoServers) in
  statusCode (value r).1 = UnsupportedError
  ∧ events r
    = [EvResize 2; EvStore 1 42; EvCreate [true; true]; EvErase 1]
  ∧ map_to_list (transactionMap_ (final r)) = [].
Proof. cbn zeta. repeat split. Qed.

(** S4: an asynchronous call on one server is submitted. *)
Example scenario_asynchronous_submitted :
  let r := invoke true BaseSessionRequest everywhere 42 oneServer
             (fullMask oneServer) in
  (value r).1 = goodStatus
  ∧ result_targets (value r).2 = [None; None; None]
  ∧ map_to_list (transactionMap_ (final r)) = [(1, 42)]
  ∧ List.filter isInvokeService (events r)
    = [@EvInvokeService _ _ _
         (collaborators true BaseSessionRequest everywhere everywhere)
         0%nat 0
         (mkInvocation 0 [0; 1; 2]%nat oneServer (Some 1)
            (Some (mkInformation 0 "A" true)) [])].
Proof. cbn zeta. repeat split. Qed.

(** S5: the session is not connected; the binding is rolled back. *)
Example scenario_rollback :
  let r := invoke true BaseSessionRequest (allBut "A") 42 oneServer
             (fullMask oneServer) in
  statusCode (value r).1 = ConnectionError
  ∧ map_to_list (transactionMap_ (final r)) = []
  ∧ List.filter isInvokeService (events r) = [].
Proof. cbn zeta. repeat split. Qed.

(** C1, the claim as it stands, fails: the service is asynchronous and
    takes session requests, the factory leaves two invocations, and
    [invokeRequest] returns the factory's own status, not
    [UnsupportedError]. *)
Lemma fan_out_with_failed_factory_is_not_unsupported :
  let r := invoke true BaseSessionRequest everywhere 42 unresolved
             (fullMask unresolved) in
  let created :=
    create true BaseSessionRequest
      (request true BaseSessionRequest 42 unresolved)
      (resize_targets 3 (emptyResult true BaseSessionRequest))
      (fullMask unresolved) in
  @asynchronous _ _ (service true BaseSessionRequest) = true
  ∧ @requestBase _ _ (service true BaseSessionRequest) = BaseSessionRequest
  ∧ length created.2 = 2%nat
  ∧ statusCode (value r).1 = InvalidServerUri
  ∧ bool_decide (statusCode (value r).1 = UnsupportedError) = false.
Proof. cbn zeta. repeat split. Qed.

(** An asynchronous call over two servers, every server online. *)
Lemma invokeRequest_fan_out_not_forwarded_witness :
  let r := invoke true BaseSessionRequest everywhere 42 twoServers
             (fullMask twoServers) in
  statusCode (value r).1 = UnsupportedError
  ∧ Forall (λ e, isLoopEvent e = false) (events r).
Proof.
  destruct (invokeRequest_fan_out_not_forwarded
              (request true BaseSessionRequest 42 twoServers)
              (fullMask twoServers) (emptyResult true BaseSessionRequest) 0
              (initialFactory true BaseSessionRequest everywhere everywhere)
              eq_refl (le_n 2)) as (Hgood & _ & Hevents).
  split; [exact (Hgood eq_refl)|exact Hevents].
Defined.

(** An asynchronous call to a server that is offline. *)
Lemma invokeRequest_failure_erases_binding_witness :
  let r := invoke true BaseSessionRequest (allBut "A") 42 oneServer
             (fullMask oneServer) in
  isGood (value r).1 = false
  ∧ transactionMap_ (final r) !! 1 = None.
Proof.
  split; [reflexivity|].
  destruct (invokeRequest_failure_erases_binding
              (request true BaseSessionRequest 42 oneServer)
              (fullMask oneServer) (emptyResult true BaseSessionRequest) 0
              (initialFactory true BaseSessionRequest everywhere (allBut "A"))
              eq_refl eq_refl eq_refl) as (_ & _ & Herased).
  exact Herased.
Defined.

(** An asynchronous call to a server that is online. *)
Lemma invokeRequest_success_keeps_binding_witness :
  let r := invoke true BaseSessionRequest everywhere 42 oneServer
             (fullMask oneServer) in
  isGood (value r).1 = true
  ∧ transactionMap_ (final r) !! 1 = Some 42.
Proof.
  split; [reflexivity|].
  destruct (invokeRequest_success_keeps_binding
              (request true BaseSessionRequest 42 oneServer)
              (fullMask oneServer) (emptyResult true BaseSessionRequest) 0
              (initialFactory true BaseSessionRequest everywhere everywhere)
              eq_refl eq_refl eq_refl) as (Hkept & _).
  exact Hkept.
Defined.

(** A synchronous read over three servers. *)
Lemma invokeRequest_synchronous_frame_witness :
  let r := invoke false BaseSessionRequest everywhere 7 threeServers
             (fullMask threeServers) in
  transactionMap_ (final r) = ∅
  ∧ transactionId_ (final r) = 0.
Proof.
  destruct (invokeRequest_synchronous_frame
              (request false BaseSessionRequest 7 threeServers)
              (fullMask threeServers) (emptyResult false BaseSessionRequest) 0
              (initialFactory false BaseSessionRequest everywhere everywhere)
              eq_refl) as (Hmap & Hid & _).
  split; [exact Hmap|exact Hid].
Defined.

(** A synchronous read over the servers A and B with A offline: the loop
    is over after the first of the two invocations. *)
Lemma processInvocations_stops_at_first_failure_witness :
  let its :=
    (create false BaseSessionRequest
       (request false BaseSessionRequest 7 twoServers)
       (emptyResult false BaseSessionRequest) (fullMask twoServers)).2 in
  let run its' :=
    processInvocations (request false BaseSessionRequest 7 twoServers)
      false 0 0 its' goodStatus (emptyResult false BaseSessionRequest)
      (initialFactory false BaseSessionRequest everywhere (allBut "A")) in
  length its = 2%nat
  ∧ isGood (value (run (take 1 its))).1 = false
  ∧ run its = run (take 1 its).
Proof.
  split; [reflexivity|]. split; [reflexivity|].
  destruct (processInvocations_stops_at_first_failure
              (request false BaseSessionRequest 7 twoServers) false 0
              (create false BaseSessionRequest
                 (request false BaseSessionRequest 7 twoServers)
                 (emptyResult false BaseSessionRequest)
                 (fullMask twoServers)).2
              1 goodStatus (emptyResult false BaseSessionRequest)
              (initialFactory false BaseSessionRequest everywhere (allBut "A"))
              eq_refl) as (Hsame & _).
  exact Hsame.
Defined.

(** The loop body on an invocation for the server A, which is offline. *)
Lemma processInvocation_forwards_iff_connected_witness :
  let r :=
    processInvocation (request true BaseSessionRequest 42 oneServer)
      true 1 0
      ("A", mkInvocation 0 [0; 1; 2]%nat oneServer None None [])
      (emptyResult true BaseSessionRequest)
      (initialFactory true BaseSessionRequest everywhere (allBut "A")) in
  List.filter isInvokeService (events r) = []
  ∧ statusCode (value r).1 = ConnectionError
  ∧ world (final r)
    = (SessionTable.releaseSession 0 true
         (SessionTable.acquireSession everywhere (allBut "A") "A" 0
            SessionTable.emptyTable).2).2.
Proof.
  exact (processInvocation_forwards_iff_connected
           (request true BaseSessionRequest 42 oneServer) true 1 0
           ("A", mkInvocation 0 [0; 1; 2]%nat oneServer None None [])
           (emptyResult true BaseSessionRequest)
           (initialFactory true BaseSessionRequest everywhere (allBut "A"))
           eq_refl).
Defined.

(** A synchronous read over three servers: four targets come back. *)
Lemma invokeRequest_result_size_witness :
  length (result_targets
            (value (invoke false BaseSessionRequest everywhere 7
                      threeServers (fullMask threeServers))).2)
  = 4%nat.
Proof.
  apply (invokeRequest_result_size
           (request false BaseSessionRequest 7 threeServers)
           (fullMask threeServers) (emptyResult false BaseSessionRequest) 0
           (initialFactory false BaseSessionRequest everywhere everywhere)).
  - intros request' result' mask'.
    exact (f_equal (λ x, length (result_targets x))
             (create_leaves_result false BaseSessionRequest
                request' result' mask')).
  - exact inv_copyToResult_length.
Defined.

(** S6: a session acquired once and released twice. *)
Lemma release_underflow_is_reported_witness :
  SessionTable.activity releasedTable 0 = 0
  ∧ statusCode (SessionTable.releaseSession 0 true releasedTable).1
    = ReleaseUnderflow
  ∧ SessionTable.activity
      (SessionTable.releaseSession 0 true releasedTable).2 0 = 0.
Proof.
  split; [reflexivity|].
  destruct (release_underflow_is_reported everywhere everywhere
              releasedTable
              (SessionTable.reachable_release everywhere everywhere 0 true _
                 (SessionTable.reachable_acquire everywhere everywhere
                    "A" 0 _
                    (SessionTable.reachable_empty everywhere everywhere))))
    as (_ & _ & Hrelease).
  destruct (Hrelease 0 true eq_refl) as (Hcode & _ & _ & Hcount).
  split; [exact Hcode|exact Hcount].
Defined.

End DemoFacts.

(** * Further properties of the dispatcher *)

Section DispatcherMoreFacts.

Context {SessionSettings SessionInformation : Type}.
Context {service : Service SessionSettings SessionInformation}.
Context {collaborators : Collaborators service}.

Local Abbreviation Request := (Request service).
Local Abbreviation Result := (Result service).
Local Abbreviation SessionFactory := (SessionFactory collaborators).

(** What [storeRequestHandleIfNeeded] does, by the kind of the request. *)
Lemma storeRequestHandleIfNeeded_run (request : Request) transactionId
    (s : SessionFactory) :
  let fresh := getNewTransactionId (transactionId_ s) in
  storeRequestHandleIfNeeded request transactionId s
  = (if sessionLevelAsynchronous
     then ((true, fresh.1),
           mkSessionFactory fresh.2
             (<[fresh.1 := requestHandle request]> (transactionMap_ s))
             (world s),
           [EvStore fresh.1 (requestHandle request)])
     else ((false, transactionId), s, [])).
Proof.
  cbn zeta. unfold sessionLevelAsynchronous.
  destruct (decide (requestBase = BaseSessionRequest)) as [Hbase|Hbase];
    [destruct asynchronous eqn:Hasync|].
  - rewrite bool_decide_true by done. cbn [andb].
    by rewrite storeRequestHandleIfNeeded_stores.
  - rewrite andb_false_r. by rewrite storeRequestHandleIfNeeded_skips by auto.
  - rewrite bool_decide_false by done. cbn [andb].
    rewrite storeRequestHandleIfNeeded_skips; [done|].
    left. by destruct requestBase.
Qed.

(** One call of [acquireSession] in each run of the loop body. *)
Lemma processInvocation_acquire_events (request : Request) handleStored
    transactionId invocationIndex it (result : Result) (s : SessionFactory) :
  List.filter isAcquireSession
    (events (processInvocation request handleStored transactionId
               invocationIndex it result s))
  = [EvAcquireSession invocationIndex it.1].
Proof.
  rewrite processInvocation_run. cbn zeta.
  destruct (isGood (acquireSession _ _ _).1.1); cbn [events snd];
    rewrite !List.filter_app;
    destruct handleStored; try destruct (isConnected _ _);
    try destruct (negb asynchronous && _); reflexivity.
Qed.

(** The body leaves a good status only if the session was acquired, was
    connected and served the invocation. *)
Lemma processInvocation_good (request : Request) handleStored transactionId
    invocationIndex it (result : Result) (s : SessionFactory) :
  let r := processInvocation request handleStored transactionId
             invocationIndex it result s in
  isGood (value r).1 = true →
  length (List.filter isInvokeService (events r)) = 1%nat
  ∧ length (List.filter isReleaseSession (events r)) = 1%nat
  ∧ length (List.filter isCopyToResult (events r))
    = (if asynchronous then 0 else 1)%nat.
Proof.
  cbn zeta. rewrite processInvocation_run. cbn zeta.
  unfold statusBeforeCopy. cbn zeta.
  destruct (isGood (acquireSession _ _ _).1.1) eqn:Hacquired;
    cbn [value events fst snd]; [|by rewrite Hacquired].
  destruct (isConnected _ _); cbn [isGood setStatus statusCode].
  - destruct asynchronous; cbn [negb andb].
    + intros _. rewrite !List.filter_app. by destruct handleStored.
    + destruct (isGood (invokeService _ _ _ _).1.1) eqn:Hserved.
      * intros _. rewrite !List.filter_app. by destruct handleStored.
      * by rewrite Hserved.
  - by rewrite andb_false_r.
Qed.

(** A run of the loop that ends with a good status went through every
    invocation. *)
Lemma processInvocations_good (request : Request) handleStored transactionId
    its :
  ∀ invocationIndex status (result : Result) (s : SessionFactory),
    let r := processInvocations request handleStored transactionId
               invocationIndex its status result s in
    isGood (value r).1 = true →
    isGood status = true
    ∧ List.filter isAcquireSession (events r)
      = imap (λ i it, EvAcquireSession (invocationIndex + i) it.1) its
    ∧ length (List.filter isInvokeService (events r)) = length its
    ∧ length (List.filter isReleaseSession (events r)) = length its
    ∧ length (List.filter isCopyToResult (events r))
      = (if asynchronous then 0 else length its)%nat.
Proof.
  induction its as [|it its IH]; intros invocationIndex status result s;
    cbn [processInvocations].
  - unfold ret. cbn [value events fst snd List.filter imap length].
    intros Hgood. by destruct asynchronous.
  - destruct (isGood status) eqn:Hstatus;
      [|unfold ret; cbn [value fst snd]; congruence].
    pose proof (processInvocation_acquire_events request handleStored
                  transactionId invocationIndex it result s) as Hacquire.
    pose proof (processInvocation_good request handleStored transactionId
                  invocationIndex it result s) as Hbody.
    unfold bind.
    destruct (processInvocation _ _ _ _ _ _ _) as [[[status' result'] s'] e'].
    cbn [value final events fst snd] in *.
    destruct (isGood status') eqn:Hstatus'.
    + specialize (IH (S invocationIndex) status' result' s').
      destruct (processInvocations _ _ _ _ _ _ _ _) as [[v s''] e''].
      cbn [value final events fst snd] in *. intros Hgood.
      destruct (IH Hgood) as (_ & Hacquires & Hinvokes & Hreleases & Hcopies).
      destruct (Hbody eq_refl) as (Hinvoke & Hrelease & Hcopy).
      split; [done|].
      rewrite !List.filter_app, !length_app, Hacquire, Hacquires, Hinvoke,
        Hinvokes, Hrelease, Hreleases, Hcopy, Hcopies.
      split; [|by destruct asynchronous].
      cbn [imap app]. rewrite Nat.add_0_r. f_equal. apply imap_ext.
      intros i x _. cbn. by rewrite Nat.add_succ_r.
    + rewrite processInvocations_not_good by done.
      cbn [value fst snd]. congruence.
Qed.

Lemma checkSingleSession_good invocations status :
  isGood (checkSingleSession invocations status) = true →
  isGood status = true
  ∧ (asynchronous = true → (length invocations ≤ 1)%nat).
Proof.
  unfold checkSingleSession.
  destruct (isGood status) eqn:Hstatus; cbn [andb]; [|congruence].
  destruct asynchronous; [|done].
  destruct (1 <? length invocations)%nat eqn:Hmany; [done|].
  intros _. split; [done|]. intros _. apply Nat.ltb_ge in Hmany. lia.
Qed.

(** Outside the loop [invokeRequest] makes no call that carries an
    invocation index. *)
Lemma invokeRequest_loop_filter (f : Event collaborators → bool)
    (request : Request) mask (result : Result) transactionId
    (s : SessionFactory) :
  (∀ e, invocationIndexOf e = None → f e = false) →
  let stored := storeRequestHandleIfNeeded request transactionId s in
  let created :=
    factory_create request
      (resize_targets (length (request_targets request)) result) mask in
  List.filter f (events (invokeRequest request mask result transactionId s))
  = List.filter f
      (events (processInvocations request (value stored).1 (value stored).2 0
                 created.2 (checkSingleSession created.2 created.1.1)
                 created.1.2 (final stored))).
Proof.
  intros Hf. cbn zeta. rewrite invokeRequest_run. cbn [events snd].
  cbn [List.filter]. rewrite (Hf (EvResize _)) by done.
  rewrite List.filter_app. cbn [List.filter].
  rewrite (Hf (EvCreate _)) by done. rewrite List.filter_app.
  rewrite (filter_none f (events (storeRequestHandleIfNeeded _ _ _))).
  2:{ eapply Forall_impl; [apply storeRequestHandleIfNeeded_events|].
      intros e He. by apply Hf. }
  destruct (isNotGood _ && _); cbn [List.filter app].
  - rewrite (Hf (EvErase _)) by done. by rewrite app_nil_r.
  - by rewrite app_nil_r.
Qed.

(** What the loop forwards are the entries of the invocation list. *)
Lemma processInvocations_forwarded (request : Request) handleStored
    transactionId its :
  ∀ invocationIndex status (result : Result) (s : SessionFactory),
    Forall (λ e, match e with
                 | EvInvokeService i _ invocation =>
                     ∃ it, its !! (i - invocationIndex)%nat = Some it
                           ∧ (invocationIndex ≤ i)%nat
                           ∧ forwardedFrom handleStored transactionId it
                               invocation
                 | _ => True
                 end)
      (events (processInvocations request handleStored transactionId
                 invocationIndex its status result s)).
Proof.
  induction its as [|it its IH]; intros invocationIndex status result s;
    cbn [processInvocations]; [constructor|].
  destruct (isGood status); [|constructor].
  unfold bind. rewrite processInvocation_run. cbn zeta.
  destruct (isGood (acquireSession _ _ _).1.1);
    match goal with
    | |- context [processInvocations ?a ?b ?c ?d ?e ?f ?g ?h] =>
        specialize (IH d f g h);
        destruct (processInvocations a b c d e f g h) as [[v s''] e'']
    end;
    cbn [value final events fst snd] in *;
    (apply Forall_app; split;
     [|eapply Forall_impl; [exact IH|];
       intros [] He; try done;
       destruct He as (it' & Hit & Hle & Hfrom);
       exists it'; split; [|split; [lia|done]];
       by replace (invocationIndex0 - invocationIndex)%nat
            with (S (invocationIndex0 - S invocationIndex)) by lia]).
  - repeat (apply Forall_app; split);
      try destruct handleStored; try destruct (isConnected _ _);
      try destruct (negb asynchronous && _);
      repeat constructor.
    all: exists it; rewrite Nat.sub_diag; repeat split; try done.
    all: by eexists.
  - apply Forall_app; split; try destruct handleStored; repeat constructor.
Qed.

(** A body that fails before [copyToResult] hands the result back as it
    got it. *)
Lemma processInvocation_failed_before_copy (request : Request) handleStored
    transactionId invocationIndex it (result : Result) (s : SessionFactory) :
  isGood (statusBeforeCopy request handleStored transactionId it s) = false →
  value (processInvocation request handleStored transactionId
           invocationIndex it result s)
  = (statusBeforeCopy request handleStored transactionId it s, result).
Proof.
  intros Hfailed. rewrite processInvocation_run. cbn zeta.
  rewrite Hfailed, andb_false_r.
  destruct (isGood (acquireSession _ _ _).1.1) eqn:Hacquired;
    cbn [value fst snd]; [done|].
  unfold statusBeforeCopy. cbn zeta. by rewrite Hacquired.
Qed.

End DispatcherMoreFacts.

Section DispatcherExtras.

Context {SessionSettings SessionInformation : Type}.
Context {service : Service SessionSettings SessionInformation}.
Context {collaborators : Collaborators service}.

Local Abbreviation Request := (Request service).
Local Abbreviation Result := (Result service).
Local Abbreviation SessionFactory := (SessionFactory collaborators).

(** X1.  One run of the loop body releases the session exactly when
    [acquireSession] returned a good status, on every path through the body
    (session not connected, service failing, [copyToResult] failing); the
    release is then the last thing the body does, on the session state the
    service call left.  When the acquisition fails nothing is released and
    the status of the acquisition is returned with the result untouched. *)
Theorem processInvocation_releases_iff_acquired (request : Request)
    handleStored transactionId invocationIndex it (result : Result)
    (s : SessionFactory) :
  let invocation := stamped handleStored transactionId it.2 in
  let acquired := acquireSession it.1 (sessionSettings invocation) (world s) in
  let session := acquired.1.2 in
  let invoked :=
    invokeService request
      (setSessionInformation (sessionInformation session acquired.2) invocation)
      session acquired.2 in
  let r := processInvocation request handleStored transactionId
             invocationIndex it result s in
  if isGood acquired.1.1 then
    List.filter isReleaseSession (events r)
    = [EvReleaseSession invocationIndex session]
    ∧ last (events r) = Some (EvReleaseSession invocationIndex session)
    ∧ world (final r)
      = (releaseSession session true
           (if isConnected session acquired.2 then invoked.2 else acquired.2)).2
  else
    List.filter isReleaseSession (events r) = []
    ∧ value r = (acquired.1.1, result)
    ∧ world (final r) = acquired.2.
Proof.
  cbn zeta. rewrite processInvocation_run. cbn zeta.
  destruct (isGood (acquireSession _ _ _).1.1);
    cbn [value final events fst snd world].
  - split; [|split; [|done]].
    + rewrite !List.filter_app.
      by destruct handleStored, (isConnected _ _), (negb asynchronous && _).
    + rewrite !app_assoc. apply last_snoc.
  - split; [|done]. rewrite List.filter_app. by destruct handleStored.
Qed.

(** X2.  The loop over the invocations of [pre ++ post] is the loop over
    [pre] followed, from the status, result and state it leaves and with the
    index advanced by the length of [pre], by the loop over [post]. *)
Theorem processInvocations_app (request : Request) handleStored transactionId
    pre post invocationIndex status (result : Result) (s : SessionFactory) :
  let r1 := processInvocations request handleStored transactionId
              invocationIndex pre status result s in
  let r2 := processInvocations request handleStored transactionId
              (invocationIndex + length pre) post (value r1).1 (value r1).2
              (final r1) in
  processInvocations request handleStored transactionId invocationIndex
    (pre ++ post) status result s
  = (value r2, final r2, events r1 ++ events r2).
Proof.
  revert invocationIndex status result s.
  induction pre as [|it pre IH]; intros invocationIndex status result s;
    cbn [app processInvocations length].
  - rewrite Nat.add_0_r. unfold ret. cbn [value final events fst snd app].
    by destruct (processInvocations _ _ _ _ _ _ _ _) as [[? ?] ?].
  - destruct (isGood status) eqn:Hstatus.
    + unfold bind.
      destruct (processInvocation _ _ _ _ _ _ _) as [[[status' result'] s'] e'].
      specialize (IH (S invocationIndex) status' result' s'). cbn zeta in IH.
      rewrite IH. rewrite Nat.add_succ_r.
      destruct (processInvocations _ _ _ (S invocationIndex) pre _ _ _)
        as [[[status1 result1] s1] e1].
      cbn [value final events fst snd].
      destruct (processInvocations _ _ _ _ post _ _ _) as [[v2 s2] e2].
      cbn [value final events fst snd]. by rewrite app_assoc.
    + unfold ret. cbn [value final events fst snd app].
      by rewrite processInvocations_not_good.
Qed.

(** X3.  The sessions are acquired in the order of the invocation map, one
    call of [acquireSession] per entry with the entry's server URI and the
    entry's position as index, for the first [k] entries and no others. *)
Theorem processInvocations_acquires_in_order (request : Request)
    handleStored transactionId its invocationIndex status (result : Result)
    (s : SessionFactory) :
  ∃ k, (k ≤ length its)%nat
       ∧ List.filter isAcquireSession
           (events (processInvocations request handleStored transactionId
                      invocationIndex its status result s))
         = imap (λ i it, EvAcquireSession (invocationIndex + i) it.1)
             (take k its).
Proof.
  revert invocationIndex status result s.
  induction its as [|it its IH]; intros invocationIndex status result s;
    cbn [processInvocations].
  - exists 0%nat. by split.
  - destruct (isGood status); [|exists 0%nat; split; [cbn; lia|done]].
    pose proof (processInvocation_acquire_events request handleStored
                  transactionId invocationIndex it result s) as Hbody.
    unfold bind.
    destruct (processInvocation _ _ _ _ _ _ _) as [[[status' result'] s'] e'].
    destruct (IH (S invocationIndex) status' result' s') as (k & Hk & Hrest).
    destruct (processInvocations _ _ _ _ _ _ _ _) as [[v s''] e''].
    cbn [value final events fst snd] in *.
    exists (S k). split; [cbn; lia|].
    rewrite List.filter_app, Hbody, Hrest. cbn [take imap app].
    rewrite Nat.add_0_r. f_equal. apply imap_ext.
    intros i x _. cbn. by rewrite Nat.add_succ_r.
Qed.

(** X4.  When [invokeRequest] returns a good status, the factory's status
    was good, an asynchronous service had at most one invocation, and every
    invocation of the factory was processed: a session was acquired for
    each, in order and under the entry's server URI, each was forwarded to a
    session and each session was released; a synchronous service also ran
    [copyToResult] for each, an asynchronous one for none. *)
Theorem invokeRequest_good_means_all_forwarded (request : Request) mask
    (result : Result) transactionId (s : SessionFactory) :
  let created :=
    factory_create request
      (resize_targets (length (request_targets request)) result) mask in
  let r := invokeRequest request mask result transactionId s in
  isGood (value r).1 = true →
  isGood created.1.1 = true
  ∧ (asynchronous = true → (length created.2 ≤ 1)%nat)
  ∧ List.filter isAcquireSession (events r)
    = imap (λ i it, EvAcquireSession i it.1) created.2
  ∧ length (List.filter isInvokeService (events r)) = length created.2
  ∧ length (List.filter isReleaseSession (events r)) = length created.2
  ∧ length (List.filter isCopyToResult (events r))
    = (if asynchronous then 0 else length created.2)%nat.
Proof.
  intros created r Hgood.
  assert (isGood (value (processInvocations request
                           (value (storeRequestHandleIfNeeded request
                                     transactionId s)).1
                           (value (storeRequestHandleIfNeeded request
                                     transactionId s)).2
                           0 created.2
                           (checkSingleSession created.2 created.1.1)
                           created.1.2
                           (final (storeRequestHandleIfNeeded request
                                     transactionId s)))).1 = true) as Hloop.
  { subst r. by rewrite invokeRequest_run in Hgood. }
  apply processInvocations_good in Hloop
    as (Hchecked & Hacquires & Hinvokes & Hreleases & Hcopies).
  apply checkSingleSession_good in Hchecked as [Hcreated Hsingle].
  subst r. rewrite !invokeRequest_loop_filter by (by intros []).
  fold created. by rewrite Hacquires, Hinvokes, Hreleases, Hcopies.
Qed.

(** X5.  Whatever [invokeRequest] forwards to a session is an invocation
    the factory built, at the position its index says, with the session
    information copied in; for a session request of an asynchronous service
    it carries the transaction id under which the request handle was stored,
    and for every other request it is not stamped. *)
Theorem invokeRequest_forwards_stamped_invocations (request : Request) mask
    (result : Result) transactionId (s : SessionFactory) :
  let fresh := getNewTransactionId (transactionId_ s) in
  let created :=
    factory_create request
      (resize_targets (length (request_targets request)) result) mask in
  let r := invokeRequest request mask result transactionId s in
  Forall (λ e, match e with
               | EvInvokeService i _ invocation =>
                   ∃ it, created.2 !! i = Some it
                         ∧ forwardedFrom sessionLevelAsynchronous fresh.1 it
                             invocation
               | _ => True
               end)
    (events r).
Proof.
  intros fresh created r. subst r. rewrite invokeRequest_run.
  rewrite storeRequestHandleIfNeeded_run. fold fresh created.
  cbn [events snd]. constructor; [done|]. apply Forall_app. split.
  { by destruct sessionLevelAsynchronous; repeat constructor. }
  constructor; [done|]. apply Forall_app. split.
  2:{ destruct (isNotGood _ && _); by repeat constructor. }
  eapply Forall_impl; [apply processInvocations_forwarded|].
  intros [] He; try done. destruct He as (it & Hit & _ & Hfrom).
  rewrite Nat.sub_0_r in Hit. exists it. split; [done|].
  destruct sessionLevelAsynchronous; [done|].
  destruct Hfrom as [information ->]. by exists information.
Qed.

(** X6.  When the factory builds no invocation, [invokeRequest] returns the
    factory's status and result and calls nothing on the session side; after
    a good status, the binding of a session request of an asynchronous
    service stays in the transaction map although nothing was forwarded. *)
Theorem invokeRequest_without_invocations (request : Request) mask
    (result : Result) transactionId (s : SessionFactory) :
  let fresh := getNewTransactionId (transactionId_ s) in
  let created :=
    factory_create request
      (resize_targets (length (request_targets request)) result) mask in
  let r := invokeRequest request mask result transactionId s in
  created.2 = [] →
  value r = (created.1.1, created.1.2)
  ∧ world (final r) = world s
  ∧ Forall (λ e, isLoopEvent e = false) (events r)
  ∧ (sessionLevelAsynchronous = true → isGood created.1.1 = true →
     transactionMap_ (final r) !! fresh.1 = Some (requestHandle request)).
Proof.
  intros fresh created r Hnone. subst r. rewrite invokeRequest_run.
  rewrite storeRequestHandleIfNeeded_run. fold fresh created.
  rewrite Hnone. cbn [processInvocations]. unfold ret.
  assert (checkSingleSession [] created.1.1 = created.1.1) as ->.
  { unfold checkSingleSession. by destruct (_ && _). }
  cbn [value final events fst snd].
  destruct sessionLevelAsynchronous; cbn [value final events fst snd].
  - split; [done|]. split; [by destruct (_ && _)|]. split.
    + destruct (_ && _); by repeat constructor.
    + intros _ Hgood. unfold isNotGood. rewrite Hgood. cbn [negb andb].
      apply lookup_insert_eq.
  - rewrite andb_false_r. split; [done|]. split; [done|].
    split; [by repeat constructor|done].
Qed.

(** X7.  When the status before the loop is not good (the factory failed,
    or an asynchronous request was spread over several sessions),
    [invokeRequest] returns that status with the result as the factory left
    it, acquires, invokes and releases nothing, and leaves the session side
    of the state as it was; the transaction map is the one before the call,
    less the id allocated for a session request of an asynchronous
    service. *)
Theorem invokeRequest_refused_leaves_sessions (request : Request) mask
    (result : Result) transactionId (s : SessionFactory) :
  let fresh := getNewTransactionId (transactionId_ s) in
  let created :=
    factory_create request
      (resize_targets (length (request_targets request)) result) mask in
  let r := invokeRequest request mask result transactionId s in
  isGood (checkSingleSession created.2 created.1.1) = false →
  value r = (checkSingleSession created.2 created.1.1, created.1.2)
  ∧ world (final r) = world s
  ∧ Forall (λ e, isLoopEvent e = false) (events r)
  ∧ transactionMap_ (final r)
    = (if sessionLevelAsynchronous
       then delete fresh.1 (transactionMap_ s) else transactionMap_ s).
Proof.
  intros fresh created r Hrefused. subst r. rewrite invokeRequest_run.
  rewrite storeRequestHandleIfNeeded_run. fold fresh created.
  rewrite processInvocations_not_good by done.
  cbn [value final events fst snd]. unfold isNotGood. rewrite Hrefused.
  cbn [negb andb].
  destruct sessionLevelAsynchronous;
    cbn [value final events fst snd world transactionMap_].
  - split; [done|]. split; [done|]. split; [by repeat constructor|].
    apply delete_insert_eq.
  - split; [done|]. split; [done|]. split; [by repeat constructor|done].
Qed.

(** X8.  When a session request of an asynchronous service fails, the
    transaction map at return is the map before the call without the
    allocated id: every other binding is kept, and a binding that was
    already stored under that id is gone, not restored. *)
Theorem invokeRequest_failure_transaction_map (request : Request) mask
    (result : Result) transactionId (s : SessionFactory) :
  asynchronous = true → requestBase = BaseSessionRequest →
  let fresh := getNewTransactionId (transactionId_ s) in
  let r := invokeRequest request mask result transactionId s in
  isGood (value r).1 = false →
  transactionMap_ (final r) = delete fresh.1 (transactionMap_ s).
Proof.
  intros Hasync Hbase fresh r. subst r. rewrite invokeRequest_run.
  rewrite storeRequestHandleIfNeeded_stores by done. fold fresh.
  cbn [value final events fst snd].
  intros Hbad. unfold isNotGood. rewrite Hbad. cbn [negb andb transactionMap_].
  match goal with
  | |- context [processInvocations ?a ?b ?c ?d ?e ?f ?g ?h] =>
      pose proof (processInvocations_frame a b c e d f g h) as [_ Hmap]
  end.
  cbn zeta in Hmap. rewrite Hmap. cbn [transactionMap_].
  apply delete_insert_eq.
Qed.

(** X9.  When the invocations [pre] were processed with a good status and
    the next one fails before [copyToResult] (no session, session not
    connected, or the service call failing), the loop returns the status of
    that failure together with the result as [pre] left it: what the earlier
    invocations copied into the result stays there, and [post] adds
    nothing. *)
Theorem processInvocations_failure_keeps_earlier_results (request : Request)
    handleStored transactionId pre it post invocationIndex status
    (result : Result) (s : SessionFactory) :
  let r1 := processInvocations request handleStored transactionId
              invocationIndex pre status result s in
  let failure :=
    statusBeforeCopy request handleStored transactionId it (final r1) in
  isGood (value r1).1 = true →
  isGood failure = false →
  value (processInvocations request handleStored transactionId
           invocationIndex (pre ++ it :: post) status result s)
  = (failure, (value r1).2).
Proof.
  revert invocationIndex status result s.
  induction pre as [|it' pre IH]; intros invocationIndex status result s;
    cbn [app processInvocations].
  - unfold ret at 1 2 3. cbn [value final fst snd]. intros -> Hfailed.
    pose proof (processInvocation_failed_before_copy request handleStored
                  transactionId invocationIndex it result s Hfailed) as Hbody.
    unfold bind.
    destruct (processInvocation _ _ _ _ _ _ _) as [[[status' result'] s'] e'].
    cbn [value fst snd] in Hbody. injection Hbody as -> ->.
    by rewrite processInvocations_not_good.
  - destruct (isGood status) eqn:Hstatus;
      [|unfold ret; cbn [value final fst snd]; congruence].
    unfold bind.
    destruct (processInvocation _ _ _ _ _ _ _) as [[[status' result'] s'] e'].
    specialize (IH (S invocationIndex) status' result' s'). cbn zeta in IH.
    destruct (processInvocations _ _ _ _ pre _ _ _)
      as [[[status1 result1] s1] e1].
    cbn [value final events fst snd] in *.
    intros Hgood Hfailed. specialize (IH Hgood Hfailed).
    by destruct (processInvocations _ _ _ _ (pre ++ it :: post) _ _ _)
      as [[v2 s2] e2].
Qed.

End DispatcherExtras.

(** ** The further properties on the demonstration instance *)

Section DemoExtras.

Import Demo.

(** A synchronous read over three servers, all online. *)
Lemma invokeRequest_good_means_all_forwarded_witness :
  let r := invoke false BaseSessionRequest everywhere 7 threeServers
             (fullMask threeServers) in
  isGood (value r).1 = true
  ∧ length (List.filter isInvokeService (events r)) = 3%nat
  ∧ length (List.filter isReleaseSession (events r)) = 3%nat.
Proof.
  split; [reflexivity|].
  destruct (invokeRequest_good_means_all_forwarded
              (request false BaseSessionRequest 7 threeServers)
              (fullMask threeServers) (emptyResult false BaseSessionRequest) 0
              (initialFactory false BaseSessionRequest everywhere everywhere)
              eq_refl) as (_ & _ & _ & Hinvokes & Hreleases & _).
  split; [exact Hinvokes|exact Hreleases].
Defined.

(** An asynchronous call whose mask selects no target. *)
Lemma invokeRequest_without_invocations_witness :
  let r := invoke true BaseSessionRequest everywhere 42 oneServer [] in
  (value r).1 = goodStatus
  ∧ transactionMap_ (final r) !! 1 = Some 42
  ∧ Forall (λ e, isLoopEvent e = false) (events r).
Proof.
  destruct (invokeRequest_without_invocations
              (request true BaseSessionRequest 42 oneServer) []
              (emptyResult true BaseSessionRequest) 0
              (initialFactory true BaseSessionRequest everywhere everywhere)
              eq_refl) as (Hvalue & _ & Hevents & Hbound).
  split; [exact (f_equal fst Hvalue)|].
  split; [exact (Hbound eq_refl eq_refl)|exact Hevents].
Defined.

(** A synchronous read with a target that has no server URI. *)
Lemma invokeRequest_refused_leaves_sessions_witness :
  let r := invoke false BaseSessionRequest everywhere 7 unresolved
             (fullMask unresolved) in
  statusCode (value r).1 = InvalidServerUri
  ∧ world (final r) = SessionTable.emptyTable
  ∧ transactionMap_ (final r) = ∅.
Proof.
  destruct (invokeRequest_refused_leaves_sessions
              (request false BaseSessionRequest 7 unresolved)
              (fullMask unresolved) (emptyResult false BaseSessionRequest) 0
              (initialFactory false BaseSessionRequest everywhere everywhere)
              eq_refl) as (Hvalue & Hworld & _ & Hmap).
  split; [exact (f_equal (λ v, statusCode v.1) Hvalue)|].
  split; [exact Hworld|exact Hmap].
Defined.

(** An asynchronous call to the offline server A while the id it is given
    is still bound to the handle 7. *)
Lemma invokeRequest_failure_transaction_map_witness :
  let r :=
    invokeRequest (request true BaseSessionRequest 42 oneServer)
      (fullMask oneServer) (emptyResult true BaseSessionRequest) 0
      pendingFactory in
  transactionMap_ pendingFactory !! 1 = Some 7
  ∧ isGood (value r).1 = false
  ∧ transactionMap_ (final r) = delete 1 (transactionMap_ pendingFactory).
Proof.
  split; [reflexivity|]. split; [reflexivity|].
  exact (invokeRequest_failure_transaction_map
           (request true BaseSessionRequest 42 oneServer)
           (fullMask oneServer) (emptyResult true BaseSessionRequest) 0
           pendingFactory eq_refl eq_refl eq_refl).
Defined.

(** A synchronous read over the servers A, B and C with B offline: the data
    read from A are returned, nothing is read from C. *)
Lemma processInvocations_failure_keeps_earlier_results_witness :
  let its :=
    (create false BaseSessionRequest
       (request false BaseSessionRequest 7 threeServers)
       (emptyResult false BaseSessionRequest) (fullMask threeServers)).2 in
  let r :=
    processInvocations (request false BaseSessionRequest 7 threeServers)
      false 0 0 its goodStatus
      (resize_targets 4 (emptyResult false BaseSessionRequest))
      (initialFactory false BaseSessionRequest everywhere (allBut "B")) in
  length its = 3%nat
  ∧ statusCode (value r).1 = ConnectionError
  ∧ result_targets (value r).2 = [Some 10; Some 20; None; None].
Proof.
  split; [reflexivity|].
  pose proof (processInvocations_failure_keeps_earlier_results
                (request false BaseSessionRequest 7 threeServers) false 0
                [("A", mkInvocation 0 [0; 1]%nat
                         [mkTarget "A" 10; mkTarget "A" 20] None None [])]
                ("B", mkInvocation 0 [2]%nat [mkTarget "B" 30] None None [])
                [("C", mkInvocation 0 [3]%nat [mkTarget "C" 40] None None [])]
                0 goodStatus
                (resize_targets 4 (emptyResult false BaseSessionRequest))
                (initialFactory false BaseSessionRequest everywhere
                   (allBut "B"))
                eq_refl eq_refl) as Hrun.
  split.
  - exact (f_equal (λ v, statusCode v.1) Hrun).
  - exact (f_equal (λ v, result_targets v.2) Hrun).
Defined.

End DemoExtras.
